(** * Telegraf configuration synthesis of the discovery service

    A shallow embedding of the Go packages [common], [telegraf] and [sink] of
    the discovery repository, and the properties of its configuration
    builders, of the persistence gate and of the sink dispatcher.

    Conventions of the embedding:
    - a Go [map[string]T] is a [gmap string T]; the order in which [range]
      visits a map is chosen by the runtime, so it is an explicit oracle
      ([MapOrder]) that every theorem quantifies over;
    - a Go [string] is a [string] (a sequence of bytes), a [[]byte] is an
      [option (list byte)] whose [None] is the nil slice;
    - a function returning [(value, error)] returns a pair whose second
      component is an [option error];
    - methods with a pointer receiver return the updated receiver;
    - the logger and the file system are threaded as a [World], which also
      records every call made to them. *)

From stdpp Require Import ssreflect.
From stdpp Require Import gmap strings list fin_maps sorting.
From Stdlib Require Import Strings.String Strings.Ascii Strings.Byte NArith Lia.
From Stdlib Require Import DecimalString.

Set Warnings "-rewrite-rw".

(** ** Go primitives *)

Module Go.

(** Go compares strings byte by byte; [String.leb] is that order. *)
Definition string_le (s1 s2 : string) : Prop := String.leb s1 s2 = true.

#[global] Instance string_le_dec : RelDecision string_le.
Proof. intros s1 s2. unfold string_le. apply _. Defined.

(** [sort.Strings]: the sorted rearrangement of the slice. The order is
    total and antisymmetric, so that rearrangement is unique and the
    algorithm the library runs does not matter; merge sort computes it. *)
Definition sort_Strings (l : list string) : list string :=
  merge_sort string_le l.

#[global] Instance byte_eq_dec : EqDecision byte := Byte.byte_eq_dec.

(** [bytes.Join(s, sep)] *)
Fixpoint bytes_Join (s : list (list byte)) (sep : list byte) : list byte :=
  match s with
  | [] => []
  | [x] => x
  | x :: rest => x ++ sep ++ bytes_Join rest sep
  end.

(** [len(bs)] of a [[]byte]; [None] is the nil slice. *)
Definition slice_len (bs : option (list byte)) : nat :=
  match bs with
  | None => 0
  | Some l => List.length l
  end.

(** The runtime's choice of the order in which [range] visits a map. *)
Class MapOrder := {
  map_range : ∀ {A}, gmap string A → list (string * A);
  map_range_perm : ∀ A (m : gmap string A), map_range m ≡ₚ map_to_list m
}.

(** One possible runtime: the order of [map_to_list]. *)
Definition canonical_order : MapOrder :=
  {| map_range := λ A m, map_to_list m;
     map_range_perm := λ A m, reflexivity (map_to_list m) |}.

(** Another one: the opposite order. *)
Definition reversed_order : MapOrder :=
  {| map_range := λ A m, reverse (map_to_list m);
     map_range_perm := λ A m, reverse_Permutation (map_to_list m) |}.

(** Data whose Go declarations are outside the files modelled here. *)
Class Payloads := {
  (** the element types of [BaseConfig.Qualities], [.Availability], [.Metrics] *)
  QualitiesT : Type;
  AvailabilityT : Type;
  MetricsT : Type;
  (** the decoded payload of a [File] (an [interface{}]) *)
  FileObjT : Type;
  (** one entry of [InputPrometheusHttp.Metric] *)
  MetricT : Type;
  (** the [sync.Map] handed over by a discovery *)
  SinkMapT : Type;
  (** a parsed text template of the rendering library *)
  TextTemplateT : Type;
  (** errors raised by libraries (encoder, template engine, operating system) *)
  LibErrorT : Type;
  (** the state of the file system *)
  FileSystemT : Type
}.

(** The [error] interface: a value made by [errors.New], or a library's own. *)
Inductive error `{Payloads} :=
  | errors_New (msg : string)
  | lib_error (e : LibErrorT).

End Go.

(** ** Package [common]

    [File], [BaseConfig] and [Object] are declared in a file of the package
    other than the one modelled; the records below have the fields that the
    builders and the sink read. *)

Module common.
Export Go.

(** [type Labels map[string]string] *)
Abbreviation Labels := (gmap string string).

(** [type File struct]: the fields the builders read. *)
Module File.
Record t `{Payloads} := mk {
  Path : string;
  Type_ : string;
  Obj : FileObjT
}.
Arguments mk {_} _ _ _.
End File.

(** [type BaseConfig struct] *)
Module BaseConfig.
Record t `{Payloads} := mk {
  Labels : gmap string string;
  Vars : gmap string string;
  Qualities : QualitiesT;
  Availability : AvailabilityT;
  Metrics : MetricsT
}.
Arguments mk {_} _ _ _ _ _.
End BaseConfig.

(** [type Object struct]: a discovered service. The maps hold pointers in
    Go; they are taken to be non-nil, as the builders dereference them
    without a test. *)
Module Object.
Record t `{Payloads} := mk {
  Vars : gmap string string;
  Files : gmap string File.t;
  Configs : gmap string BaseConfig.t;
  Metrics : list string
}.
Arguments mk {_} _ _ _ _.
End Object.

(** What the logger is given: the format (or object) and its arguments. *)
Inductive LogArg `{Payloads} :=
  | ArgString (s : string)
  | ArgInt (n : nat)
  | ArgError (e : error)
  | ArgStrings (l : list string).

(** What the outside world sees of a run: the lines handed to the logger
    and the calls of [FileWriteWithCheckSum], in order. *)
Inductive Event `{Payloads} :=
  | LogDebug (obj : LogArg) (args : list LogArg)
  | LogError (obj : LogArg) (args : list LogArg)
  | CallFileWriteWithCheckSum (path : string) (bs : list byte) (checksum : bool).

Record World `{Payloads} := mkWorld {
  fs : FileSystemT;
  trace : list Event
}.
Arguments mkWorld {_} _ _.

(** Functions of the standard library, of third-party modules and of files
    of package [common] that are not modelled here. *)
Class Externals `{Payloads} := {
  (** [github.com/devopsext/utils] *)
  utils_IsEmpty : string → bool;
  utils_Contains : list string → string → bool;
  (** package [strings] *)
  strings_Split : string → string → list string;
  strings_TrimSpace : string → string;
  strings_ReplaceAll : string → string → string → string;
  (** [github.com/devopsext/tools/render] *)
  NewTextTemplate : string → option TextTemplateT * option error;
  RenderObject : TextTemplateT → gmap string string → list byte * option error;
  (** package [common]: [FileWriteWithCheckSum(path, bs, checksum)] returns
      [(exists, err)] and may change the file system *)
  FileWriteWithCheckSum :
    FileSystemT → string → list byte → bool → FileSystemT * (bool * option error);
  (** package [common]: views of a discovery's [sync.Map] *)
  ConvertSyncMapToServices : SinkMapT → gmap string Object.t;
  ConvertSyncMapToLabelsMap : SinkMapT → gmap string (gmap string string);
  len_SinkMap : SinkMapT → nat
}.

Section functions.
Context {types : Payloads} {ext : Externals} {order : MapOrder}.

(** [logger.Debug(obj, args...)] *)
Definition logger_Debug (obj : LogArg) (args : list LogArg) (w : World) : World :=
  mkWorld (fs w) (trace w ++ [LogDebug obj args]).

(** [logger.Error(obj, args...)] *)
Definition logger_Error (obj : LogArg) (args : list LogArg) (w : World) : World :=
  mkWorld (fs w) (trace w ++ [LogError obj args]).

(** The call of [FileWriteWithCheckSum], recorded in the trace. *)
Definition call_FileWriteWithCheckSum (path : string) (bs : list byte)
    (checksum : bool) (w : World) : World * (bool * option error) :=
  let '(fs', r) := FileWriteWithCheckSum (fs w) path bs checksum in
  (mkWorld fs' (trace w ++ [CallFileWriteWithCheckSum path bs checksum]), r).

(** [for k, v := range m { r[k] = v }] *)
Definition copy_into {A} (r m : gmap string A) : gmap string A :=
  foldl (λ r kv, <[kv.1 := kv.2]> r) r (map_range m).

(** [func MergeStringMaps(maps ...map[string]string) map[string]string] *)
Definition MergeStringMaps (maps : list (gmap string string)) : gmap string string :=
  foldl copy_into ∅ maps.

(** [GetStringKeys], [GetBaseConfigKeys], [GetFileKeys], [GetLabelsKeys]:
    the keys in the order the runtime visits the map. *)
Definition GetStringKeys (arr : gmap string string) : list string :=
  (map_range arr).*1.

Definition GetBaseConfigKeys (arr : gmap string BaseConfig.t) : list string :=
  (map_range arr).*1.

Definition GetFileKeys (arr : gmap string File.t) : list string :=
  (map_range arr).*1.

Definition GetLabelsKeys (arr : gmap string (gmap string string)) : list string :=
  (map_range arr).*1.

(** [func RenderTemplate(tpl *TextTemplate, def string, obj interface{}) (string, error)];
    a nil [tpl] is [None]. *)
Definition RenderTemplate (tpl : option TextTemplateT) (def : string)
    (obj : gmap string string) : string * option error :=
  match tpl with
  | None => (def, None)
  | Some tpl =>
      let '(b, err) := RenderObject tpl obj in
      match err with
      | Some e => (def, Some e)
      | None =>
          let r := strings_TrimSpace (string_of_list_byte b) in
          (strings_ReplaceAll r "<no value>" "", None)
      end
  end.

(** [func Render(def string, obj interface{}, observability *Observability) string];
    its logger is the one of the world. *)
Definition Render (def : string) (obj : gmap string string) (w : World) : World * string :=
  let '(tpl, err) := NewTextTemplate def in
  match err with
  | Some e => (logger_Error (ArgError e) [] w, def)
  | None =>
      let '(s, err) := RenderTemplate tpl def obj in
      match err with
      | Some e => (logger_Error (ArgError e) [] w, def)
      | None => (w, s)
      end
  end.

End functions.
End common.

(** ** Package [telegraf]

    The structs of the input records and of their options are declared in
    files of the package other than the one modelled. A record below has
    the fields that the builders assign, an options record the fields that
    the builders read and the command line sets. *)

Module telegraf.
Export common.

(** Modelled from the spec: the method [updateIncludeTags(tags)] of the five
    input records is declared in files of package [telegraf] that are not
    part of the sources at hand. The [Include] list of a record is a
    de-duplicated collection of tag names, so the method adds each name of
    [tags] to the list unless the list has it already. The builders over
    label maps call it on a record whose [Tags] are not assigned yet, so a
    method that added the keys of the receiver's [Tags] as well would
    compute the same lists there. *)
Definition updateIncludeTags (include tags : list string) : list string :=
  foldl (λ inc tag, if decide (tag ∈ inc) then inc else inc ++ [tag]) include tags.

(** [type InputDNSQuery struct]. The unexported [observability] handle of
    the input records carries the logger, which is the [World] here. *)
Module InputDNSQuery.
Record t := mk {
  Interval : string;
  Servers : list string;
  Domains : list string;
  Network : string;
  RecordType : string;
  Port : Z;
  Timeout : Z;
  Tags : gmap string string;
  Include : list string
}.
Definition with_Include (ti : t) (v : list string) : t :=
  mk (Interval ti) (Servers ti) (Domains ti) (Network ti) (RecordType ti)
     (Port ti) (Timeout ti) (Tags ti) v.
Definition with_Tags (ti : t) (v : gmap string string) : t :=
  mk (Interval ti) (Servers ti) (Domains ti) (Network ti) (RecordType ti)
     (Port ti) (Timeout ti) v (Include ti).
Definition updateIncludeTags (ti : t) (tags : list string) : t :=
  with_Include ti (telegraf.updateIncludeTags (Include ti) tags).
End InputDNSQuery.

(** [type InputDNSQueryOptions struct] *)
Module InputDNSQueryOptions.
Record t := mk {
  Interval : string;
  Servers : string;
  Network : string;
  Domains : string;
  RecordType : string;
  Port : Z;
  Timeout : Z;
  Tags : list string
}.
End InputDNSQueryOptions.

(** [type InputHTTPResponse struct] *)
Module InputHTTPResponse.
Record t := mk {
  Interval : string;
  URLs : list string;
  Timeout : string;
  Method : string;
  FollowRedirects : bool;
  StringMatch : string;
  StatusCode : Z;
  InsecureSkipVerify : bool;
  Tags : gmap string string;
  Include : list string
}.
Definition with_Include (ti : t) (v : list string) : t :=
  mk (Interval ti) (URLs ti) (Timeout ti) (Method ti) (FollowRedirects ti)
     (StringMatch ti) (StatusCode ti) (InsecureSkipVerify ti) (Tags ti) v.
Definition with_Tags (ti : t) (v : gmap string string) : t :=
  mk (Interval ti) (URLs ti) (Timeout ti) (Method ti) (FollowRedirects ti)
     (StringMatch ti) (StatusCode ti) (InsecureSkipVerify ti) v (Include ti).
Definition updateIncludeTags (ti : t) (tags : list string) : t :=
  with_Include ti (telegraf.updateIncludeTags (Include ti) tags).
End InputHTTPResponse.

(** [type InputHTTPResponseOptions struct] *)
Module InputHTTPResponseOptions.
Record t := mk {
  Interval : string;
  URLs : string;
  Path : string;
  Method : string;
  FollowRedirects : bool;
  StringMatch : string;
  StatusCode : Z;
  Timeout : string;
  Tags : list string
}.
End InputHTTPResponseOptions.

(** [type InputNetResponse struct] *)
Module InputNetResponse.
Record t := mk {
  Interval : string;
  Address : string;
  Protocol : string;
  Timeout : string;
  ReadTimeout : string;
  Send : string;
  Expect : string;
  Tags : gmap string string;
  Include : list string
}.
Definition with_Include (ti : t) (v : list string) : t :=
  mk (Interval ti) (Address ti) (Protocol ti) (Timeout ti) (ReadTimeout ti)
     (Send ti) (Expect ti) (Tags ti) v.
Definition with_Tags (ti : t) (v : gmap string string) : t :=
  mk (Interval ti) (Address ti) (Protocol ti) (Timeout ti) (ReadTimeout ti)
     (Send ti) (Expect ti) v (Include ti).
Definition updateIncludeTags (ti : t) (tags : list string) : t :=
  with_Include ti (telegraf.updateIncludeTags (Include ti) tags).
End InputNetResponse.

(** [type InputNetResponseOptions struct] *)
Module InputNetResponseOptions.
Record t := mk {
  Interval : string;
  Timeout : string;
  ReadTimeout : string;
  Send : string;
  Expect : string;
  Tags : list string
}.
End InputNetResponseOptions.

(** [type InputX509Cert struct] *)
Module InputX509Cert.
Record t := mk {
  Interval : string;
  Sources : list string;
  Timeout : string;
  ServerName : string;
  ExcludeRootCerts : bool;
  TLSCA : string;
  TLSCert : string;
  TLSKey : string;
  TLSServerName : string;
  UseProxy : bool;
  ProxyURL : string;
  Tags : gmap string string;
  Include : list string
}.
Definition with_Include (ti : t) (v : list string) : t :=
  mk (Interval ti) (Sources ti) (Timeout ti) (ServerName ti) (ExcludeRootCerts ti)
     (TLSCA ti) (TLSCert ti) (TLSKey ti) (TLSServerName ti) (UseProxy ti)
     (ProxyURL ti) (Tags ti) v.
Definition with_Tags (ti : t) (v : gmap string string) : t :=
  mk (Interval ti) (Sources ti) (Timeout ti) (ServerName ti) (ExcludeRootCerts ti)
     (TLSCA ti) (TLSCert ti) (TLSKey ti) (TLSServerName ti) (UseProxy ti)
     (ProxyURL ti) v (Include ti).
Definition updateIncludeTags (ti : t) (tags : list string) : t :=
  with_Include ti (telegraf.updateIncludeTags (Include ti) tags).
End InputX509Cert.

(** [type InputX509CertOptions struct] *)
Module InputX509CertOptions.
Record t := mk {
  Interval : string;
  Timeout : string;
  ServerName : string;
  ExcludeRootCerts : bool;
  TLSCA : string;
  TLSCert : string;
  TLSKey : string;
  TLSServerName : string;
  UseProxy : bool;
  ProxyURL : string;
  Tags : list string
}.
End InputX509CertOptions.

(** [type InputPrometheusHttpFile struct] *)
Module InputPrometheusHttpFile.
Record t := mk {
  Name : string;
  Path : string;
  Type_ : string
}.
End InputPrometheusHttpFile.

(** [type InputPrometheusHttp struct] *)
Module InputPrometheusHttp.
Record t `{Payloads} := mk {
  Name : string;
  URL : string;
  User : string;
  Password : string;
  Version : string;
  Params : string;
  Interval : string;
  Timeout : string;
  Duration : string;
  Prefix : string;
  File : list InputPrometheusHttpFile.t;
  Metric : list MetricT;
  Tags : gmap string string;
  Include : list string;
  SkipEmptyTags : bool
}.
Arguments mk {_} _ _ _ _ _ _ _ _ _ _ _ _ _ _ _.
Section methods.
Context `{Payloads}.
Definition with_File (ti : t) (v : list InputPrometheusHttpFile.t) : t :=
  mk (Name ti) (URL ti) (User ti) (Password ti) (Version ti) (Params ti)
     (Interval ti) (Timeout ti) (Duration ti) (Prefix ti) v (Metric ti)
     (Tags ti) (Include ti) (SkipEmptyTags ti).
Definition with_Include (ti : t) (v : list string) : t :=
  mk (Name ti) (URL ti) (User ti) (Password ti) (Version ti) (Params ti)
     (Interval ti) (Timeout ti) (Duration ti) (Prefix ti) (File ti) (Metric ti)
     (Tags ti) v (SkipEmptyTags ti).
Definition with_Metric (ti : t) (v : list MetricT) : t :=
  mk (Name ti) (URL ti) (User ti) (Password ti) (Version ti) (Params ti)
     (Interval ti) (Timeout ti) (Duration ti) (Prefix ti) (File ti) v
     (Tags ti) (Include ti) (SkipEmptyTags ti).
Definition updateIncludeTags (ti : t) (tags : list string) : t :=
  with_Include ti (telegraf.updateIncludeTags (Include ti) tags).
End methods.
End InputPrometheusHttp.

(** [type InputPrometheusHttpOptions struct] *)
Module InputPrometheusHttpOptions.
Record t := mk {
  Interval : string;
  URL : string;
  User : string;
  Password : string;
  Version : string;
  Params : string;
  Duration : string;
  Timeout : string;
  Prefix : string;
  QualityName : string;
  QualityRange : string;
  QualityEvery : string;
  QualityPoints : Z;
  QualityQuery : string;
  AvailabilityName : string;
  MetricName : string;
  DefaultTags : list string;
  VarFormat : string
}.
End InputPrometheusHttpOptions.

(** [type Inputs struct] *)
Module Inputs.
Record t `{Payloads} := mk {
  PrometheusHttp : list InputPrometheusHttp.t;
  DNSQuery : list InputDNSQuery.t;
  HTTPResponse : list InputHTTPResponse.t;
  NetResponse : list InputNetResponse.t;
  X509Cert : list InputX509Cert.t
}.
Arguments mk {_} _ _ _ _ _.
End Inputs.

(** [type Config struct]: the serialization container. Its [Observability]
    field is not serialized ([toml:"-"]) and is the [World] here. *)
Module Config.
Record t `{Payloads} := mk {
  Inputs : Inputs.t
}.
Arguments mk {_} _.
End Config.

(** The methods [buildQualities], [buildAvailability] and [buildMetrics] of
    [InputPrometheusHttp] and the TOML encoder: their code is outside the
    files modelled here, so every theorem holds whatever they compute. The
    build methods return their receiver, updated; they are taken to leave
    the object and the maps they are given as they are, and, being functions
    here, to depend on what the maps hold and not on the order in which the
    runtime would let them visit a map; the comparison of two runs of the
    metrics builder takes build methods for each run and states that as
    its assumption. *)
Class Collaborators `{Payloads} := {
  buildQualities :
    InputPrometheusHttp.t → Object.t → QualitiesT → string →
    InputPrometheusHttpOptions.t → gmap string string → gmap string string →
    gmap string FileObjT → bool → InputPrometheusHttp.t;
  buildAvailability :
    InputPrometheusHttp.t → Object.t → AvailabilityT → string →
    InputPrometheusHttpOptions.t → gmap string string → gmap string string →
    gmap string FileObjT → bool → InputPrometheusHttp.t;
  buildMetrics :
    InputPrometheusHttp.t → Object.t → MetricsT → string →
    InputPrometheusHttpOptions.t → gmap string string → gmap string string →
    gmap string FileObjT → bool → InputPrometheusHttp.t;
  (** [toml.NewEncoder(w).Encode(tc)]: the bytes written and the encoder's
      error *)
  toml_Encode : Config.t → list byte * option LibErrorT
}.

Section functions.
Context {types : Payloads} {ext : Externals} {order : MapOrder} {collab : Collaborators}.

(** The line feed, [[]byte("\n")]. *)
Definition newline : list byte := [x0a].

(** [func (tc *Config) CreateWithTemplateIfCheckSumIsDifferent(name, template,
    conf string, checksum bool, bs []byte, logger Logger)]; the receiver is
    not used by the body. *)
Definition CreateWithTemplateIfCheckSumIsDifferent (name template conf : string)
    (checksum : bool) (bs : option (list byte)) (w : World) : World :=
  if bool_decide (bs = None) || (slice_len bs =? 0) then
    logger_Debug (ArgString "%s: No query config") [ArgString name] w
  else
    let bs := default [] bs in
    let bs :=
      if negb (utils_IsEmpty template)
      then bytes_Join [bs; list_byte_of_string template] newline
      else bs in
    let '(w, (exists_, err)) := call_FileWriteWithCheckSum conf bs checksum w in
    match err with
    | Some e =>
        logger_Debug (ArgString "%s: Cannot create file %s error: %s")
          [ArgString name; ArgString conf; ArgError e] w
    | None =>
        if exists_ : bool then
          logger_Debug (ArgString "%s: File %s exists, skipped")
            [ArgString name; ArgString conf] w
        else
          logger_Debug (ArgString "%s: File %s created or replaced")
            [ArgString name; ArgString conf] w
    end.

(** [func (tc *Config) CreateIfCheckSumIsDifferent(name, conf string,
    checksum bool, bs []byte, logger Logger)] *)
Definition CreateIfCheckSumIsDifferent (name conf : string) (checksum : bool)
    (bs : option (list byte)) (w : World) : World :=
  CreateWithTemplateIfCheckSumIsDifferent name "" conf checksum bs w.

(** The last lines of every builder: encode the container into a buffer and
    return its bytes, or nil and the encoder's error. *)
Definition encode (tc : Config.t) : option (list byte) * option error :=
  let '(b, err) := toml_Encode tc in
  match err with
  | Some e => (None, Some (lib_error e))
  | None => (Some b, None)
  end.

(** [tc.Inputs.X = append(tc.Inputs.X, input)] *)
Definition append_PrometheusHttp (tc : Config.t) (input : InputPrometheusHttp.t) : Config.t :=
  let i := Config.Inputs tc in
  Config.mk (Inputs.mk (Inputs.PrometheusHttp i ++ [input]) (Inputs.DNSQuery i)
    (Inputs.HTTPResponse i) (Inputs.NetResponse i) (Inputs.X509Cert i)).

Definition append_DNSQuery (tc : Config.t) (input : InputDNSQuery.t) : Config.t :=
  let i := Config.Inputs tc in
  Config.mk (Inputs.mk (Inputs.PrometheusHttp i) (Inputs.DNSQuery i ++ [input])
    (Inputs.HTTPResponse i) (Inputs.NetResponse i) (Inputs.X509Cert i)).

Definition append_HTTPResponse (tc : Config.t) (input : InputHTTPResponse.t) : Config.t :=
  let i := Config.Inputs tc in
  Config.mk (Inputs.mk (Inputs.PrometheusHttp i) (Inputs.DNSQuery i)
    (Inputs.HTTPResponse i ++ [input]) (Inputs.NetResponse i) (Inputs.X509Cert i)).

Definition append_NetResponse (tc : Config.t) (input : InputNetResponse.t) : Config.t :=
  let i := Config.Inputs tc in
  Config.mk (Inputs.mk (Inputs.PrometheusHttp i) (Inputs.DNSQuery i)
    (Inputs.HTTPResponse i) (Inputs.NetResponse i ++ [input]) (Inputs.X509Cert i)).

Definition append_X509Cert (tc : Config.t) (input : InputX509Cert.t) : Config.t :=
  let i := Config.Inputs tc in
  Config.mk (Inputs.mk (Inputs.PrometheusHttp i) (Inputs.DNSQuery i)
    (Inputs.HTTPResponse i) (Inputs.NetResponse i) (Inputs.X509Cert i ++ [input])).

(** The [vars] of one [BaseConfig] [c] of the object [s]:
    [vars := common.MergeStringMaps(c.Vars, s.Vars)]. *)
Definition configVars (s : Object.t) (c : BaseConfig.t) : gmap string string :=
  MergeStringMaps [BaseConfig.Vars c; Object.Vars s].

(** The body of the loop over the sorted keys of [s.Configs]. *)
Definition buildConfig (s : Object.t) (labelsTpl : string)
    (opts : InputPrometheusHttpOptions.t) (fl : gmap string FileObjT)
    (persistMetrics : bool) (input : InputPrometheusHttp.t) (c : BaseConfig.t)
    : InputPrometheusHttp.t :=
  let labels := BaseConfig.Labels c in
  let vars := configVars s c in
  let input := buildQualities input s (BaseConfig.Qualities c) labelsTpl opts
                 labels vars fl persistMetrics in
  let input := buildAvailability input s (BaseConfig.Availability c) labelsTpl opts
                 labels vars fl persistMetrics in
  buildMetrics input s (BaseConfig.Metrics c) labelsTpl opts
    labels vars fl persistMetrics.

(** The input record of [GenerateInputPrometheusHttpBytes] when the loops
    over [s.Files] and [s.Configs] are done. A key of the sorted key list is
    a key of the map, so the lookups in the loops succeed. *)
Definition buildInput (s : Object.t) (labelsTpl : string)
    (opts : InputPrometheusHttpOptions.t) (name : string) (persistMetrics : bool)
    : InputPrometheusHttp.t :=
  let input :=
    InputPrometheusHttp.mk name
      (InputPrometheusHttpOptions.URL opts) (InputPrometheusHttpOptions.User opts)
      (InputPrometheusHttpOptions.Password opts) (InputPrometheusHttpOptions.Version opts)
      (InputPrometheusHttpOptions.Params opts) (InputPrometheusHttpOptions.Interval opts)
      (InputPrometheusHttpOptions.Timeout opts) (InputPrometheusHttpOptions.Duration opts)
      (InputPrometheusHttpOptions.Prefix opts) [] [] ∅ [] true in
  let fkeys := sort_Strings (GetFileKeys (Object.Files s)) in
  let '(input, fl) :=
    foldl (λ '(input, fl) k,
             match Object.Files s !! k with
             | Some v =>
                 let f := InputPrometheusHttpFile.mk k (File.Path v) (File.Type_ v) in
                 (InputPrometheusHttp.with_File input (InputPrometheusHttp.File input ++ [f]),
                  <[k := File.Obj v]> fl)
             | None => (input, fl)
             end)
          (input, ∅) fkeys in
  let keys := sort_Strings (GetBaseConfigKeys (Object.Configs s)) in
  foldl (λ input k,
           match Object.Configs s !! k with
           | Some c => buildConfig s labelsTpl opts fl persistMetrics input c
           | None => input
           end)
        input keys.

(** [func (tc *Config) GenerateInputPrometheusHttpBytes(s *common.Object,
    labelsTpl string, opts InputPrometheusHttpOptions, name string,
    persistMetrics bool) ([]byte, error)] *)
Definition GenerateInputPrometheusHttpBytes (tc : Config.t) (s : Object.t)
    (labelsTpl : string) (opts : InputPrometheusHttpOptions.t) (name : string)
    (persistMetrics : bool) : Config.t * (option (list byte) * option error) :=
  let input := buildInput s labelsTpl opts name persistMetrics in
  if List.length (InputPrometheusHttp.Metric input) =? 0 then
    (tc, (None, Some (errors_New "Metrics are not found.")))
  else
    let input :=
      InputPrometheusHttp.updateIncludeTags input
        (InputPrometheusHttpOptions.DefaultTags opts) in
    let input :=
      InputPrometheusHttp.with_Include input
        (sort_Strings (InputPrometheusHttp.Include input)) in
    let tc := append_PrometheusHttp tc input in
    (tc, encode tc).

(** The [servers] of the DNS records: the trimmed parts of [opts.Servers],
    without repetition, sorted. *)
Definition dnsServers (opts : InputDNSQueryOptions.t) : list string :=
  let servers :=
    foldl (λ servers s,
             let s := strings_TrimSpace s in
             if negb (utils_Contains servers s) then servers ++ [s] else servers)
          [] (strings_Split (InputDNSQueryOptions.Servers opts) ",") in
  sort_Strings servers.

(** The record the DNS builder makes for the key [k]. *)
Definition dnsInput (opts : InputDNSQueryOptions.t) (servers : list string)
    (domains : gmap string (gmap string string)) (k : string) : InputDNSQuery.t :=
  let input :=
    InputDNSQuery.mk (InputDNSQueryOptions.Interval opts) servers [k]
      (InputDNSQueryOptions.Network opts) (InputDNSQueryOptions.RecordType opts)
      (InputDNSQueryOptions.Port opts) (InputDNSQueryOptions.Timeout opts) ∅ [] in
  let input := InputDNSQuery.updateIncludeTags input (InputDNSQueryOptions.Tags opts) in
  let input := InputDNSQuery.with_Include input (sort_Strings (InputDNSQuery.Include input)) in
  InputDNSQuery.with_Tags input (default ∅ (domains !! k)).

(** [func (tc *Config) GenerateInputDNSQueryBytes(opts InputDNSQueryOptions,
    domains map[string]common.Labels) ([]byte, error)] *)
Definition GenerateInputDNSQueryBytes (tc : Config.t) (opts : InputDNSQueryOptions.t)
    (domains : gmap string (gmap string string))
    : Config.t * (option (list byte) * option error) :=
  let servers := dnsServers opts in
  let keys := sort_Strings (GetLabelsKeys domains) in
  let tc := foldl (λ tc k, append_DNSQuery tc (dnsInput opts servers domains k)) tc keys in
  (tc, encode tc).

(** The record the HTTP-response builder makes for the key [k]. *)
Definition httpInput (opts : InputHTTPResponseOptions.t)
    (urls : gmap string (gmap string string)) (k : string) : InputHTTPResponse.t :=
  let input :=
    InputHTTPResponse.mk (InputHTTPResponseOptions.Interval opts) [k]
      (InputHTTPResponseOptions.Timeout opts) (InputHTTPResponseOptions.Method opts)
      (InputHTTPResponseOptions.FollowRedirects opts)
      (InputHTTPResponseOptions.StringMatch opts)
      (InputHTTPResponseOptions.StatusCode opts) true ∅ [] in
  let input := InputHTTPResponse.updateIncludeTags input (InputHTTPResponseOptions.Tags opts) in
  let input :=
    InputHTTPResponse.with_Include input (sort_Strings (InputHTTPResponse.Include input)) in
  InputHTTPResponse.with_Tags input (default ∅ (urls !! k)).

(** [func (tc *Config) GenerateInputHTTPResponseBytes(opts InputHTTPResponseOptions,
    urls map[string]common.Labels) ([]byte, error)] *)
Definition GenerateInputHTTPResponseBytes (tc : Config.t)
    (opts : InputHTTPResponseOptions.t) (urls : gmap string (gmap string string))
    : Config.t * (option (list byte) * option error) :=
  let keys := sort_Strings (GetLabelsKeys urls) in
  let tc := foldl (λ tc k, append_HTTPResponse tc (httpInput opts urls k)) tc keys in
  (tc, encode tc).

(** The record the net-response builder makes for the key [k]. *)
Definition netInput (opts : InputNetResponseOptions.t)
    (addresses : gmap string (gmap string string)) (protocol k : string)
    : InputNetResponse.t :=
  let input :=
    InputNetResponse.mk (InputNetResponseOptions.Interval opts) k protocol
      (InputNetResponseOptions.Timeout opts) (InputNetResponseOptions.ReadTimeout opts)
      (InputNetResponseOptions.Send opts) (InputNetResponseOptions.Expect opts) ∅ [] in
  let input := InputNetResponse.updateIncludeTags input (InputNetResponseOptions.Tags opts) in
  let input :=
    InputNetResponse.with_Include input (sort_Strings (InputNetResponse.Include input)) in
  InputNetResponse.with_Tags input (default ∅ (addresses !! k)).

(** [func (tc *Config) GenerateInputNETResponseBytes(opts InputNetResponseOptions,
    addresses map[string]common.Labels, protocol string) ([]byte, error)] *)
Definition GenerateInputNETResponseBytes (tc : Config.t)
    (opts : InputNetResponseOptions.t) (addresses : gmap string (gmap string string))
    (protocol : string) : Config.t * (option (list byte) * option error) :=
  let keys := sort_Strings (GetLabelsKeys addresses) in
  let tc :=
    foldl (λ tc k, append_NetResponse tc (netInput opts addresses protocol k)) tc keys in
  (tc, encode tc).

(** The record the certificate builder makes for the key [k]. *)
Definition certInput (opts : InputX509CertOptions.t)
    (addresses : gmap string (gmap string string)) (k : string) : InputX509Cert.t :=
  let input :=
    InputX509Cert.mk (InputX509CertOptions.Interval opts) [k]
      (InputX509CertOptions.Timeout opts) (InputX509CertOptions.ServerName opts)
      (InputX509CertOptions.ExcludeRootCerts opts) (InputX509CertOptions.TLSCA opts)
      (InputX509CertOptions.TLSCert opts) (InputX509CertOptions.TLSKey opts)
      (InputX509CertOptions.TLSServerName opts) (InputX509CertOptions.UseProxy opts)
      (InputX509CertOptions.ProxyURL opts) ∅ [] in
  let input := InputX509Cert.updateIncludeTags input (InputX509CertOptions.Tags opts) in
  let input := InputX509Cert.with_Include input (sort_Strings (InputX509Cert.Include input)) in
  InputX509Cert.with_Tags input (default ∅ (addresses !! k)).

(** [func (tc *Config) GenerateInputX509CertBytes(opts InputX509CertOptions,
    addresses map[string]common.Labels) ([]byte, error)] *)
Definition GenerateInputX509CertBytes (tc : Config.t) (opts : InputX509CertOptions.t)
    (addresses : gmap string (gmap string string))
    : Config.t * (option (list byte) * option error) :=
  let keys := sort_Strings (GetLabelsKeys addresses) in
  let tc := foldl (λ tc k, append_X509Cert tc (certInput opts addresses k)) tc keys in
  (tc, encode tc).

End functions.
End telegraf.

(** ** Package [sink] *)

Module sink.
Export telegraf.

(** [discovery.SignalOptions]: the connection options a Signal discovery
    resolved, which the sink falls back on. *)
Module SignalOptions.
Record t := mk {
  URL : string;
  User : string;
  Password : string
}.
End SignalOptions.

(** The value of [so.Options()], an [interface{}]: the type assertion
    [so.(discovery.SignalOptions)] succeeds on [OptionsSignal] only. *)
Inductive SinkOptions :=
  | OptionsSignal (o : SignalOptions.t)
  | OptionsOther.

(** [type TelegrafSignalOptions struct] *)
Module TelegrafSignalOptions.
Record t := mk {
  InputPrometheusHttpOptions : InputPrometheusHttpOptions.t;
  Template : string;
  Tags : string
}.
End TelegrafSignalOptions.

(** [type TelegrafCertOptions struct] *)
Module TelegrafCertOptions.
Record t := mk {
  InputX509CertOptions : InputX509CertOptions.t;
  Template : string;
  Conf : string
}.
End TelegrafCertOptions.

(** [type TelegrafDNSOptions struct] *)
Module TelegrafDNSOptions.
Record t := mk {
  InputDNSQueryOptions : InputDNSQueryOptions.t;
  Template : string;
  Conf : string
}.
End TelegrafDNSOptions.

(** [type TelegrafHTTPOptions struct] *)
Module TelegrafHTTPOptions.
Record t := mk {
  InputHTTPResponseOptions : InputHTTPResponseOptions.t;
  Template : string;
  Conf : string
}.
End TelegrafHTTPOptions.

(** [type TelegrafTCPOptions struct] *)
Module TelegrafTCPOptions.
Record t := mk {
  InputNetResponseOptions : InputNetResponseOptions.t;
  Template : string;
  Conf : string
}.
End TelegrafTCPOptions.

(** [type TelegrafOptions struct] *)
Module TelegrafOptions.
Record t := mk {
  Pass : list string;
  Signal : TelegrafSignalOptions.t;
  Cert : TelegrafCertOptions.t;
  DNS : TelegrafDNSOptions.t;
  HTTP : TelegrafHTTPOptions.t;
  TCP : TelegrafTCPOptions.t;
  Checksum : bool
}.
End TelegrafOptions.

(** [type Telegraf struct]; its logger and observability are the [World]. *)
Module Telegraf.
Record t := mk {
  options : TelegrafOptions.t
}.
End Telegraf.

(** [common.Discovery]: what the sink asks of a discovery. *)
Module Discovery.
Record t := mk {
  Name : string;
  Source : string
}.
End Discovery.

(** [common.SinkObject] *)
Module SinkObject.
Record t `{Payloads} := mk {
  Map : SinkMapT;
  Options : SinkOptions
}.
Arguments mk {_} _ _.
End SinkObject.

Section functions.
Context {types : Payloads} {ext : Externals} {order : MapOrder} {collab : Collaborators}.

(** The call of the builder in [processSignal] was written for its
    four-argument version; the flag the builder has since been given is a
    parameter of the sink here. *)
Variable persistMetrics : bool.

(** [&telegraf.Config{Observability: t.observability}] *)
Definition newConfig : Config.t := Config.mk (Inputs.mk [] [] [] [] []).

(** [t.options.Signal.URL = v], [.User = v], [.Password = v] *)
Definition setSignal (t : Telegraf.t)
    (f : InputPrometheusHttpOptions.t → InputPrometheusHttpOptions.t) : Telegraf.t :=
  let o := Telegraf.options t in
  let sg := TelegrafOptions.Signal o in
  Telegraf.mk
    (TelegrafOptions.mk (TelegrafOptions.Pass o)
       (TelegrafSignalOptions.mk (f (TelegrafSignalOptions.InputPrometheusHttpOptions sg))
          (TelegrafSignalOptions.Template sg) (TelegrafSignalOptions.Tags sg))
       (TelegrafOptions.Cert o) (TelegrafOptions.DNS o) (TelegrafOptions.HTTP o)
       (TelegrafOptions.TCP o) (TelegrafOptions.Checksum o)).

Definition with_URL (v : string) (o : InputPrometheusHttpOptions.t)
    : InputPrometheusHttpOptions.t :=
  let 'InputPrometheusHttpOptions.mk i _ us pw ve pa du ti pr qn qr qe qp qq an mn dt vf := o in
  InputPrometheusHttpOptions.mk i v us pw ve pa du ti pr qn qr qe qp qq an mn dt vf.

Definition with_User (v : string) (o : InputPrometheusHttpOptions.t)
    : InputPrometheusHttpOptions.t :=
  let 'InputPrometheusHttpOptions.mk i ur _ pw ve pa du ti pr qn qr qe qp qq an mn dt vf := o in
  InputPrometheusHttpOptions.mk i ur v pw ve pa du ti pr qn qr qe qp qq an mn dt vf.

Definition with_Password (v : string) (o : InputPrometheusHttpOptions.t)
    : InputPrometheusHttpOptions.t :=
  let 'InputPrometheusHttpOptions.mk i ur us _ ve pa du ti pr qn qr qe qp qq an mn dt vf := o in
  InputPrometheusHttpOptions.mk i ur us v ve pa du ti pr qn qr qe qp qq an mn dt vf.

(** The options of the metrics builder held by the sink. *)
Definition signalOptions (t : Telegraf.t) : InputPrometheusHttpOptions.t :=
  TelegrafSignalOptions.InputPrometheusHttpOptions
    (TelegrafOptions.Signal (Telegraf.options t)).

(** The body of the loop of [processSignal] for the service [k], [s1]. *)
Definition processService (t : Telegraf.t) (source : string) (w : World)
    (k : string) (s1 : Object.t) : World :=
  let sg := TelegrafOptions.Signal (Telegraf.options t) in
  let '(w, path) := Render (TelegrafSignalOptions.Template sg) (Object.Vars s1) w in
  let w := logger_Debug (ArgString "%s: Processing service: %s for path: %s")
             [ArgString source; ArgString k; ArgString path] w in
  let w := logger_Debug (ArgString "%s: Found metrics: %v")
             [ArgString source; ArgStrings (Object.Metrics s1)] w in
  let telegrafConfig := newConfig in
  let '(telegrafConfig, (bytes, err)) :=
    GenerateInputPrometheusHttpBytes telegrafConfig s1 (TelegrafSignalOptions.Tags sg)
      (TelegrafSignalOptions.InputPrometheusHttpOptions sg) path persistMetrics in
  match err with
  | Some e =>
      logger_Error (ArgString "%s: Service %s error: %s")
        [ArgString source; ArgString k; ArgError e] w
  | None =>
      CreateIfCheckSumIsDifferent source path
        (TelegrafOptions.Checksum (Telegraf.options t)) bytes w
  end.

(** [func (t *Telegraf) processSignal(d common.Discovery, sm common.SinkMap,
    so interface{}) error] *)
Definition processSignal (t : Telegraf.t) (d : Discovery.t) (sm : SinkMapT)
    (so : SinkOptions) (w : World) : Telegraf.t * World * option error :=
  match so with
  | OptionsOther => (t, w, Some (errors_New "no options"))
  | OptionsSignal opts =>
      let t :=
        if utils_IsEmpty (InputPrometheusHttpOptions.URL (signalOptions t))
        then setSignal t (with_URL (SignalOptions.URL opts)) else t in
      let t :=
        if utils_IsEmpty (InputPrometheusHttpOptions.User (signalOptions t))
        then setSignal t (with_User (SignalOptions.User opts)) else t in
      let t :=
        if utils_IsEmpty (InputPrometheusHttpOptions.Password (signalOptions t))
        then setSignal t (with_Password (SignalOptions.Password opts)) else t in
      let m := ConvertSyncMapToServices sm in
      let source := Discovery.Source d in
      let w := foldl (λ w ks, processService t source w ks.1 ks.2) w (map_range m) in
      (t, w, None)
  end.

(** [func (t *Telegraf) processCert(d common.Discovery, sm common.SinkMap) error] *)
Definition processCert (t : Telegraf.t) (d : Discovery.t) (sm : SinkMapT)
    (w : World) : World * option error :=
  let telegrafConfig := newConfig in
  let o := TelegrafOptions.Cert (Telegraf.options t) in
  let m := ConvertSyncMapToLabelsMap sm in
  let '(telegrafConfig, (bs, err)) :=
    GenerateInputX509CertBytes telegrafConfig (TelegrafCertOptions.InputX509CertOptions o) m in
  match err with
  | Some e => (w, Some e)
  | None =>
      (CreateWithTemplateIfCheckSumIsDifferent (Discovery.Source d)
         (TelegrafCertOptions.Template o) (TelegrafCertOptions.Conf o)
         (TelegrafOptions.Checksum (Telegraf.options t)) bs w, None)
  end.

(** [func (t *Telegraf) processDNS(d common.Discovery, sm common.SinkMap) error] *)
Definition processDNS (t : Telegraf.t) (d : Discovery.t) (sm : SinkMapT)
    (w : World) : World * option error :=
  let telegrafConfig := newConfig in
  let o := TelegrafOptions.DNS (Telegraf.options t) in
  let m := ConvertSyncMapToLabelsMap sm in
  let '(telegrafConfig, (bs, err)) :=
    GenerateInputDNSQueryBytes telegrafConfig (TelegrafDNSOptions.InputDNSQueryOptions o) m in
  match err with
  | Some e => (w, Some e)
  | None =>
      (CreateWithTemplateIfCheckSumIsDifferent (Discovery.Source d)
         (TelegrafDNSOptions.Template o) (TelegrafDNSOptions.Conf o)
         (TelegrafOptions.Checksum (Telegraf.options t)) bs w, None)
  end.

(** [func (t *Telegraf) processHTTP(d common.Discovery, sm common.SinkMap) error] *)
Definition processHTTP (t : Telegraf.t) (d : Discovery.t) (sm : SinkMapT)
    (w : World) : World * option error :=
  let telegrafConfig := newConfig in
  let o := TelegrafOptions.HTTP (Telegraf.options t) in
  let m := ConvertSyncMapToLabelsMap sm in
  let '(telegrafConfig, (bs, err)) :=
    GenerateInputHTTPResponseBytes telegrafConfig
      (TelegrafHTTPOptions.InputHTTPResponseOptions o) m in
  match err with
  | Some e => (w, Some e)
  | None =>
      (CreateWithTemplateIfCheckSumIsDifferent (Discovery.Source d)
         (TelegrafHTTPOptions.Template o) (TelegrafHTTPOptions.Conf o)
         (TelegrafOptions.Checksum (Telegraf.options t)) bs w, None)
  end.

(** [func (t *Telegraf) processTCP(d common.Discovery, sm common.SinkMap) error] *)
Definition processTCP (t : Telegraf.t) (d : Discovery.t) (sm : SinkMapT)
    (w : World) : World * option error :=
  let telegrafConfig := newConfig in
  let o := TelegrafOptions.TCP (Telegraf.options t) in
  let m := ConvertSyncMapToLabelsMap sm in
  let '(telegrafConfig, (bs, err)) :=
    GenerateInputNETResponseBytes telegrafConfig
      (TelegrafTCPOptions.InputNetResponseOptions o) m "tcp" in
  match err with
  | Some e => (w, Some e)
  | None =>
      (CreateWithTemplateIfCheckSumIsDifferent (Discovery.Source d)
         (TelegrafTCPOptions.Template o) (TelegrafTCPOptions.Conf o)
         (TelegrafOptions.Checksum (Telegraf.options t)) bs w, None)
  end.

(** The end of [Process], after a branch of the [switch] returned [err]. *)
Definition reportError (d : Discovery.t) (dname : string) (err : option error)
    (w : World) : World :=
  match err with
  | Some e =>
      logger_Error (ArgString "%s: %s query error: %s")
        [ArgString (Discovery.Source d); ArgString dname; ArgError e] w
  | None => w
  end.

(** [func (t *Telegraf) Process(d common.Discovery, so common.SinkObject)] *)
Definition Process (t : Telegraf.t) (d : Discovery.t) (so : SinkObject.t)
    (w : World) : Telegraf.t * World :=
  let dname := Discovery.Name d in
  let m := SinkObject.Map so in
  let w := logger_Debug (ArgString "Telegraf has to process %d objects from %s...")
             [ArgInt (len_SinkMap m); ArgString dname] w in
  if decide (dname = "Signal") then
    let '(t, w, err) := processSignal t d m (SinkObject.Options so) w in
    (t, reportError d dname err w)
  else if decide (dname = "Cert") then
    let '(w, err) := processCert t d m w in
    (t, reportError d dname err w)
  else if decide (dname = "DNS") then
    let '(w, err) := processDNS t d m w in
    (t, reportError d dname err w)
  else if decide (dname = "HTTP") then
    let '(w, err) := processHTTP t d m w in
    (t, reportError d dname err w)
  else if decide (dname = "TCP") then
    let '(w, err) := processTCP t d m w in
    (t, reportError d dname err w)
  else
    (t, logger_Debug (ArgString "Telegraf has no support for %s") [ArgString dname] w).

End functions.
End sink.

(** ** The words of the specification *)

Module Spec.
Export sink.

(** The sorted, de-duplicated list of the names of a list. *)
Definition sortedSet (a : list string) : list string :=
  sort_Strings (remove_dups a).

(** The sorted, de-duplicated union of two lists of tag names. *)
Definition sortedUnion (a b : list string) : list string :=
  sortedSet (a ++ b).

(** The keys of a label map. *)
Definition labelKeys (m : gmap string string) : list string :=
  elements (dom m).

(** The lexicographically sorted keys of a map. *)
Definition sortedKeys {A} (m : gmap string A) : list string :=
  sort_Strings (elements (dom m)).

(** The target keys of the scenario of the DNS builder. *)
Definition scenarioDomains : gmap string (gmap string string) :=
  {[ "b.com" := {[ "env" := "prod" ]}; "a.com" := {[ "env" := "dev" ]} ]}.

(** What the scenario of the DNS builder observes of a record. *)
Definition dnsView (r : InputDNSQuery.t) : list string * list string * gmap string string :=
  (InputDNSQuery.Domains r, InputDNSQuery.Include r, InputDNSQuery.Tags r).

(** The records a builder call added to a list of the container. *)
Definition emitted {A} (before after : list A) : list A :=
  drop (List.length before) after.

(** The names that are not discovery types the sink knows. *)
Definition unknownName (dname : string) : Prop :=
  dname ≠ "Signal" ∧ dname ≠ "Cert" ∧ dname ≠ "DNS" ∧ dname ≠ "HTTP" ∧ dname ≠ "TCP".

(** No call of [FileWriteWithCheckSum] among the events. *)
Definition noFileOperation `{Payloads} (evs : list Event) : Prop :=
  ∀ path bs checksum, CallFileWriteWithCheckSum path bs checksum ∉ evs.

(** From [w] to [w'] the file system was left alone and not asked anything;
    lines may have been logged. *)
Definition onlyLogs `{Payloads} (w w' : World) : Prop :=
  fs w' = fs w ∧ ∃ evs, trace w' = trace w ++ evs ∧ noFileOperation evs.

(** No line at level error among the events. *)
Definition noErrorLogged `{Payloads} (evs : list Event) : Prop :=
  ∀ obj args, LogError obj args ∉ evs.

End Spec.

(** ** A concrete instance of the parameters

    Small stand-ins for the libraries and for the files outside the model,
    on which the definitions above can be run. No theorem depends on them:
    they serve the examples only. *)

Module Sample.
Export Spec.

#[export] Instance payloads : Payloads := {|
  QualitiesT := list string;
  AvailabilityT := list string;
  MetricsT := list string;
  FileObjT := string;
  MetricT := string * gmap string string;
  SinkMapT := gmap string (gmap string string);
  TextTemplateT := string;
  LibErrorT := string;
  FileSystemT := gmap string (list byte)
|}.

#[export] Instance order : MapOrder := canonical_order.

Definition is_space (a : ascii) : bool :=
  let n := nat_of_ascii a in (n =? 32) || ((9 <=? n) && (n <=? 13)).

Fixpoint trim_left (s : string) : string :=
  match s with
  | String a s' => if is_space a then trim_left s' else s
  | EmptyString => EmptyString
  end.

Fixpoint trim_right (s : string) : string :=
  match s with
  | String a s' =>
      let r := trim_right s' in
      if is_space a && bool_decide (r = EmptyString) then EmptyString else String a r
  | EmptyString => EmptyString
  end.

(** Splitting at a one-character separator. *)
Fixpoint split_at (c : ascii) (s : string) : list string :=
  match s with
  | EmptyString => [EmptyString]
  | String a s' =>
      if bool_decide (a = c) then EmptyString :: split_at c s'
      else match split_at c s' with
           | h :: t => String a h :: t
           | [] => [String a EmptyString]
           end
  end.

(** A service of the sample sink map: its labels are its variables, and
    its metric names are listed under the key [metrics], one BaseConfig
    named [default] holding them. *)
Definition sampleService (labels : gmap string string) : Object.t :=
  let names :=
    match labels !! "metrics" with
    | Some m => split_at "," m
    | None => []
    end in
  Object.mk labels ∅
    (if bool_decide (names = []) then ∅
     else {[ "default" := BaseConfig.mk ∅ ∅ [] [] names ]})
    names.

(** A file system that holds the bytes of each path, and compares contents
    where the program compares fingerprints. *)
Definition sampleFileWrite (fs : gmap string (list byte)) (path : string)
    (bs : list byte) (checksum : bool)
    : gmap string (list byte) * (bool * option error) :=
  if checksum && bool_decide (fs !! path = Some bs) then (fs, (true, None))
  else (<[path := bs]> fs, (false, None)).

#[export] Instance externals : Externals := {|
  utils_IsEmpty := λ s, bool_decide (trim_left s = EmptyString);
  utils_Contains := λ l s, bool_decide (s ∈ l);
  strings_Split := λ s sep,
    match sep with
    | String c EmptyString => split_at c s
    | _ => [s]
    end;
  strings_TrimSpace := λ s, trim_right (trim_left s);
  strings_ReplaceAll := λ s old new, if bool_decide (s = old) then new else s;
  NewTextTemplate := λ def, (Some def, None);
  RenderObject := λ tpl vars,
    (list_byte_of_string (default tpl (vars !! tpl)), None);
  FileWriteWithCheckSum := sampleFileWrite;
  ConvertSyncMapToServices := λ sm, sampleService <$> sm;
  ConvertSyncMapToLabelsMap := λ sm, sm;
  len_SinkMap := λ sm, size sm
|}.

(** An encoder that writes the target of every record, one per line. *)
Definition sampleEncode (tc : Config.t) : list byte * option string :=
  let i := Config.Inputs tc in
  let targets :=
    (InputPrometheusHttp.Name <$> Inputs.PrometheusHttp i)
    ++ List.concat (InputDNSQuery.Domains <$> Inputs.DNSQuery i)
    ++ List.concat (InputHTTPResponse.URLs <$> Inputs.HTTPResponse i)
    ++ (InputNetResponse.Address <$> Inputs.NetResponse i)
    ++ List.concat (InputX509Cert.Sources <$> Inputs.X509Cert i) in
  (List.concat ((λ t, list_byte_of_string t ++ newline) <$> targets), None).

(** Build methods that make no quality or availability entries and one
    metric entry per metric name, holding the name and the variables it
    was built with. *)
#[export] Instance collaborators : Collaborators := {|
  buildQualities := λ input _ _ _ _ _ _ _ _, input;
  buildAvailability := λ input _ _ _ _ _ _ _ _, input;
  buildMetrics := λ input _ metrics _ _ _ vars _ _,
    InputPrometheusHttp.with_Metric input
      (InputPrometheusHttp.Metric input ++ ((λ name, (name, vars)) <$> metrics));
  toml_Encode := sampleEncode
|}.

(** Options with the defaults of the command line. *)
Definition dnsOptions (tags : list string) : InputDNSQueryOptions.t :=
  InputDNSQueryOptions.mk "10s" "" "upd" "" "A" 53 2 tags.

Definition metricsOptions : InputPrometheusHttpOptions.t :=
  InputPrometheusHttpOptions.mk "10s" "" "" "" "v1" "" "" "5s" "" "quality" "5m"
    "15s" 20 "" "availability" "metric" [] "$%s".

Definition httpOptions (tags : list string) : InputHTTPResponseOptions.t :=
  InputHTTPResponseOptions.mk "10s" "" "" "GET" false "" 0 "5s" tags.

Definition tcpOptions (tags : list string) : InputNetResponseOptions.t :=
  InputNetResponseOptions.mk "10s" "5s" "3s" "" "" tags.

Definition certOptions (tags : list string) : InputX509CertOptions.t :=
  InputX509CertOptions.mk "10s" "5s" "" false "" "" "" "" false "" tags.

Definition telegrafSink : Telegraf.t :=
  Telegraf.mk
    (TelegrafOptions.mk []
       (TelegrafSignalOptions.mk metricsOptions "path" "")
       (TelegrafCertOptions.mk (certOptions []) "" "cert.conf")
       (TelegrafDNSOptions.mk (dnsOptions []) "" "dns.conf")
       (TelegrafHTTPOptions.mk (httpOptions []) "" "http.conf")
       (TelegrafTCPOptions.mk (tcpOptions []) "" "tcp.conf")
       true).

(** The world before a run: no file, nothing logged. *)
Definition emptyWorld : World := mkWorld (∅ : gmap string (list byte)) [].

(** A service whose variable [env] is set both by the object and by its
    BaseConfig [default], which has one metric. *)
Definition overlappingConfig : BaseConfig.t :=
  BaseConfig.mk ∅ {[ "env" := "config" ]} [] [] ["up"].

Definition overlappingService : Object.t :=
  Object.mk {[ "env" := "object" ]} ∅ {[ "default" := overlappingConfig ]} ["up"].

(** Options of the DNS builder with a list of servers that repeats one. *)
Definition dnsOptionsWithServers : InputDNSQueryOptions.t :=
  InputDNSQueryOptions.mk "10s" "8.8.8.8, 1.1.1.1,8.8.8.8 " "udp" "" "A" 53 2 ["env"].

(** A service with no metric: its only variable is [env]. *)
Definition idleService : Object.t := sampleService {[ "env" := "object" ]}.

(** A service with one metric, [up]. *)
Definition busyService : Object.t := sampleService {[ "metrics" := "up" ]}.

(** The build methods of [collaborators], with an encoder that fails on
    every container. *)
Definition failingEncoder : Collaborators := {|
  buildQualities := @buildQualities _ collaborators;
  buildAvailability := @buildAvailability _ collaborators;
  buildMetrics := @buildMetrics _ collaborators;
  toml_Encode := λ _, ([], Some "unsupported type")
|}.

(** Build methods whose metrics step, besides the metric entries, puts the
    labels it is given into the [Tags] of the record and their keys into its
    [Include] list. *)
Definition taggingCollaborators : Collaborators := {|
  buildQualities := λ input _ _ _ _ _ _ _ _, input;
  buildAvailability := λ input _ _ _ _ _ _ _ _, input;
  buildMetrics := λ input _ metrics _ _ labels vars _ _,
    InputPrometheusHttp.mk
      (InputPrometheusHttp.Name input) (InputPrometheusHttp.URL input)
      (InputPrometheusHttp.User input) (InputPrometheusHttp.Password input)
      (InputPrometheusHttp.Version input) (InputPrometheusHttp.Params input)
      (InputPrometheusHttp.Interval input) (InputPrometheusHttp.Timeout input)
      (InputPrometheusHttp.Duration input) (InputPrometheusHttp.Prefix input)
      (InputPrometheusHttp.File input)
      (InputPrometheusHttp.Metric input ++ ((λ name, (name, vars)) <$> metrics))
      (labels ∪ InputPrometheusHttp.Tags input)
      (updateIncludeTags (InputPrometheusHttp.Include input) (sortedKeys labels))
      (InputPrometheusHttp.SkipEmptyTags input);
  toml_Encode := sampleEncode
|}.

(** A service whose BaseConfig [default] has two labels and one metric. *)
Definition labelledService : Object.t :=
  Object.mk ∅ ∅
    {[ "default" := BaseConfig.mk {[ "team" := "sre"; "env" := "dev" ]} ∅ [] [] ["up"] ]}
    ["up"].

(** A service with two BaseConfigs, each with one metric. *)
Definition twoConfigService : Object.t :=
  Object.mk {[ "env" := "object" ]} ∅
    {[ "b" := BaseConfig.mk ∅ ∅ [] [] ["down"];
       "a" := BaseConfig.mk ∅ {[ "env" := "config" ]} [] [] ["up"] ]}
    ["up"; "down"].

(** The options of the metrics builder with two default tags. *)
Definition metricsOptionsWithTags : InputPrometheusHttpOptions.t :=
  InputPrometheusHttpOptions.mk "10s" "" "" "" "v1" "" "" "5s" "" "quality" "5m"
    "15s" 20 "" "availability" "metric" ["host"; "env"] "$%s".

End Sample.

(** ** Package [common]: the other functions of the file *)

Module common_util.
Export sink.

(** [strings.Split(s, sep)] for a separator of one byte: the parts of [s]
    between the occurrences of the byte; there is always a first part. *)
Fixpoint strings_Split_byte (sep : ascii) (s : string) : list string :=
  match s with
  | EmptyString => [EmptyString]
  | String a s' =>
      if bool_decide (a = sep) then EmptyString :: strings_Split_byte sep s'
      else match strings_Split_byte sep s' with
           | part :: parts => String a part :: parts
           | [] => [String a EmptyString]
           end
  end.

(** [strings.Contains(s, substr)]: [substr] starts at some position of [s]. *)
Fixpoint strings_Contains (s substr : string) : bool :=
  String.prefix substr s
  || match s with
     | String _ s' => strings_Contains s' substr
     | EmptyString => false
     end.

(** [fmt.Sprintf("%s%d", s, n)] for an index [n], which is not negative. *)
Definition Sprintf_s_d (s : string) (n : nat) : string :=
  s +:+ NilEmpty.string_of_uint (Nat.to_uint n).

(** An [interface{}] as [IfDef] looks at it: nil, a [string], an [int], or
    a value of another type. *)
Inductive Value (Other : Type) : Type :=
  | VNil
  | VString (s : string)
  | VInt (n : Z)
  | VOther (o : Other).
Arguments VNil {Other}.
Arguments VString {Other} s.
Arguments VInt {Other} n.
Arguments VOther {Other} o.

(** [func IfDef(v, def interface{}) interface{}] *)
Definition IfDef {Other} (v def : Value Other) : Value Other :=
  match v with
  | VNil => def
  | VString s => if bool_decide (s = "") then def else v
  | VInt n => if bool_decide (n = 0%Z) then def else v
  | VOther _ => v
  end.

(** [func StringInArr(a string, arr []string) bool] *)
Fixpoint StringInArr (a : string) (arr : list string) : bool :=
  match arr with
  | [] => false
  | b :: arr => if bool_decide (b = a) then true else StringInArr a arr
  end.

(** [func StringContainsAny(s string, arr []string) bool] *)
Fixpoint StringContainsAny (s : string) (arr : list string) : bool :=
  match arr with
  | [] => false
  | v :: arr => if strings_Contains s v then true else StringContainsAny s arr
  end.

Section functions.
Context {types : Payloads} {ext : Externals} {order : MapOrder}.

(** [func MergeInterfacegMaps(maps ...map[string]interface{}) map[string]interface{}] *)
Definition MergeInterfacegMaps {A} (maps : list (gmap string A)) : gmap string A :=
  foldl copy_into ∅ maps.

(** [func SortStringMapByKeys(m map[string]string, keys []string) map[string]string];
    [m[k]] is the empty string for a key that [m] does not have. *)
Definition SortStringMapByKeys (m : gmap string string) (keys : list string)
    : gmap string string :=
  foldl (λ r k, <[k := default "" (m !! k)]> r) ∅ keys.

(** The body of the loop of [GetPrometheusDiscoveriesByInstances] for the
    part [v] at position [index]. *)
Definition discoveryEntry (m : gmap string string) (index : nat) (v : string)
    : gmap string string :=
  let n := Sprintf_s_d "unknown" index in
  let kv := strings_Split_byte "=" v in
  match kv with
  | kv0 :: kv1 :: _ =>
      let name := strings_TrimSpace kv0 in
      let name := if utils_IsEmpty name then n else name in
      let url := strings_TrimSpace kv1 in
      if negb (utils_IsEmpty url) then <[name := url]> m else m
  | [kv0] => <[n := strings_TrimSpace kv0]> m
  | [] => m
  end.

(** [func GetPrometheusDiscoveriesByInstances(names string) map[string]string] *)
Definition GetPrometheusDiscoveriesByInstances (names : string) : gmap string string :=
  let def := "unknown" in
  let arr := strings_Split_byte "," names in
  if 0 <? List.length arr then
    (foldl (λ '(m, index) v, (discoveryEntry m index v, S index)) (∅, 0) arr).1
  else
    <[def := strings_TrimSpace names]> ∅.

End functions.
End common_util.

(** ** What a run leaves in the trace *)

Module Observations.
Export common_util.
Export Spec.

(** The values of a map in the lexicographic order of their keys. *)
Definition inKeyOrder {A} (m : gmap string A) : list A :=
  omap (λ k, m !! k) (sortedKeys m).

(** The entries of the [File] list of a metrics record for the files of an
    object: one per file, in the order of the names. *)
Definition fileEntries `{Payloads} (files : gmap string File.t)
    : list InputPrometheusHttpFile.t :=
  omap (λ k, (λ v, InputPrometheusHttpFile.mk k (File.Path v) (File.Type_ v))
               <$> files !! k)
       (sortedKeys files).

(** The calls of [FileWriteWithCheckSum] among the events, in order. *)
Definition fileOperations `{Payloads} (evs : list Event)
    : list (string * list byte * bool) :=
  omap (λ e, match e with
             | CallFileWriteWithCheckSum path bs checksum => Some (path, bs, checksum)
             | _ => None
             end) evs.

(** The lines logged at level error among the events. *)
Definition errorLines `{Payloads} (evs : list Event) : list Event :=
  List.filter (λ e, match e with LogError _ _ => true | _ => false end) evs.

(** The lines logged at level debug with the format [fmt]. *)
Definition debugLines `{Payloads} (fmt : string) (evs : list Event) : list Event :=
  List.filter (λ e, match e with
                    | LogDebug (ArgString f) _ => bool_decide (f = fmt)
                    | _ => false
                    end) evs.

(** The path and the template that the sink has for a discovery of labels. *)
Definition confOf (t : Telegraf.t) (dname : string) : string :=
  let o := Telegraf.options t in
  if decide (dname = "Cert") then TelegrafCertOptions.Conf (TelegrafOptions.Cert o)
  else if decide (dname = "DNS") then TelegrafDNSOptions.Conf (TelegrafOptions.DNS o)
  else if decide (dname = "HTTP") then TelegrafHTTPOptions.Conf (TelegrafOptions.HTTP o)
  else TelegrafTCPOptions.Conf (TelegrafOptions.TCP o).

(** The entry that one part of the names of [GetPrometheusDiscoveriesByInstances]
    stands for: [name=url] with a url that is not empty, or a bare url
    under the key made of [unknown] and the position of the part. *)
Definition entryOfPart `{Payloads, !Externals} (index : nat) (v : string)
    : option (string * string) :=
  match strings_Split_byte "=" v with
  | kv0 :: kv1 :: _ =>
      if utils_IsEmpty (strings_TrimSpace kv1) then None
      else Some (if utils_IsEmpty (strings_TrimSpace kv0)
                 then Sprintf_s_d "unknown" index else strings_TrimSpace kv0,
                 strings_TrimSpace kv1)
  | [kv0] => Some (Sprintf_s_d "unknown" index, strings_TrimSpace kv0)
  | [] => None
  end.

End Observations.

(** * Properties *)

Import Spec.

(** ** The Go primitives *)

Section go_facts.
Import Go.

Lemma string_leb_trans (s1 s2 s3 : string) :
  String.leb s1 s2 = true → String.leb s2 s3 = true → String.leb s1 s3 = true.
Proof.
  unfold String.leb. revert s2 s3.
  induction s1 as [|a s1 IH]; intros [|b s2] [|c s3]; simpl; try done.
  unfold Ascii.compare.
  destruct (N.compare_spec (N_of_ascii a) (N_of_ascii b)) as [Hab|Hab|Hab];
    destruct (N.compare_spec (N_of_ascii b) (N_of_ascii c)) as [Hbc|Hbc|Hbc];
    destruct (N.compare_spec (N_of_ascii a) (N_of_ascii c)) as [Hac|Hac|Hac];
    try done; try lia.
  apply IH.
Qed.

#[global] Instance string_le_trans : Transitive string_le.
Proof. intros s1 s2 s3. apply string_leb_trans. Qed.

#[global] Instance string_le_total : Total string_le.
Proof. intros s1 s2. apply String.leb_total. Qed.

#[global] Instance string_le_antisym : AntiSymm (=) string_le.
Proof. intros s1 s2. apply String.leb_antisym. Qed.

Lemma sort_Strings_sorted (l : list string) :
  StronglySorted string_le (sort_Strings l).
Proof. apply StronglySorted_merge_sort; apply _. Qed.

Lemma sort_Strings_perm (l : list string) : sort_Strings l ≡ₚ l.
Proof. apply merge_sort_Permutation. Qed.

(** The result of sorting depends on the elements only. *)
Lemma sort_Strings_order_irrelevant (l1 l2 : list string) :
  l1 ≡ₚ l2 → sort_Strings l1 = sort_Strings l2.
Proof.
  intros Hp. apply (StronglySorted_unique string_le);
    [apply sort_Strings_sorted .. |].
  by rewrite !sort_Strings_perm.
Qed.

Lemma sort_Strings_elem_of (l : list string) (x : string) :
  x ∈ sort_Strings l ↔ x ∈ l.
Proof. by rewrite sort_Strings_perm. Qed.

Lemma sort_Strings_NoDup (l : list string) :
  NoDup (sort_Strings l) ↔ NoDup l.
Proof. by rewrite sort_Strings_perm. Qed.

Lemma sort_Strings_length (l : list string) :
  List.length (sort_Strings l) = List.length l.
Proof. by rewrite sort_Strings_perm. Qed.

(** Whatever order the runtime visits a map in, its keys are those of the
    domain. *)
Lemma map_range_keys `{MapOrder} {A} (m : gmap string A) :
  (map_range m).*1 ≡ₚ elements (dom m).
Proof.
  rewrite map_range_perm. apply NoDup_Permutation.
  - apply NoDup_fst_map_to_list.
  - apply NoDup_elements.
  - intros k. rewrite elem_of_elements elem_of_dom list_elem_of_fmap. split.
    + intros [[k' v] [-> Hin]]. apply elem_of_map_to_list in Hin. by exists v.
    + intros [v Hv]. exists (k, v). split; [done|]. by apply elem_of_map_to_list.
Qed.

Lemma sorted_range_keys `{MapOrder} {A} (m : gmap string A) :
  sort_Strings (map_range m).*1 = Spec.sortedKeys m.
Proof. apply sort_Strings_order_irrelevant, map_range_keys. Qed.

Lemma sortedKeys_elem_of {A} (m : gmap string A) (k : string) :
  k ∈ Spec.sortedKeys m ↔ is_Some (m !! k).
Proof.
  unfold Spec.sortedKeys. by rewrite sort_Strings_elem_of elem_of_elements elem_of_dom.
Qed.

Lemma sortedKeys_NoDup {A} (m : gmap string A) : NoDup (Spec.sortedKeys m).
Proof. apply sort_Strings_NoDup, NoDup_elements. Qed.

Lemma sortedKeys_length {A} (m : gmap string A) :
  List.length (Spec.sortedKeys m) = size m.
Proof.
  unfold Spec.sortedKeys. rewrite sort_Strings_length.
  by rewrite -size_dom.
Qed.

Lemma sortedKeys_empty {A} : Spec.sortedKeys (∅ : gmap string A) = [].
Proof.
  apply length_zero_iff_nil. by rewrite sortedKeys_length map_size_empty.
Qed.

End go_facts.

(** ** Package [common]: merging maps *)

Section merge_facts.
Import Spec.
Context `{MapOrder}.

Lemma foldl_insert_union {A} (l : list (string * A)) (r : gmap string A) :
  NoDup l.*1 →
  foldl (λ r kv, <[kv.1 := kv.2]> r) r l = list_to_map l ∪ r.
Proof.
  revert r. induction l as [|[k v] l IH]; intros r Hnd; simpl.
  - by rewrite left_id_L.
  - apply NoDup_cons in Hnd as [Hk Hnd]. rewrite IH //.
    rewrite -insert_union_l insert_union_r //.
    by apply not_elem_of_list_to_map_1.
Qed.

(** Copying [m] into [r] overwrites the keys of [m] and keeps the others,
    in whatever order the entries of [m] are visited. *)
Lemma copy_into_union {A} (r m : gmap string A) : copy_into r m = m ∪ r.
Proof.
  assert (NoDup (map_range m).*1) as Hnd.
  { rewrite map_range_perm. apply NoDup_fst_map_to_list. }
  unfold copy_into. rewrite foldl_insert_union //. f_equal.
  rewrite (list_to_map_proper _ (map_to_list m)) //.
  - apply list_to_map_to_list.
  - apply map_range_perm.
Qed.

(** Of two maps, the second one wins. *)
Lemma MergeStringMaps_two (a b : gmap string string) :
  MergeStringMaps [a; b] = b ∪ a.
Proof.
  unfold MergeStringMaps. simpl. by rewrite !copy_into_union right_id_L.
Qed.

Lemma MergeStringMaps_two_lookup (a b : gmap string string) (k : string) :
  MergeStringMaps [a; b] !! k =
    match b !! k with
    | Some v => Some v
    | None => a !! k
    end.
Proof.
  rewrite MergeStringMaps_two lookup_union.
  destruct (b !! k), (a !! k); done.
Qed.

End merge_facts.

(** ** The metrics builder: the variables of a BaseConfig *)

Section metrics_vars.
Import Spec.
Context `{Payloads, !Externals, !MapOrder, !Collaborators}.

(** C1, as amended. The three build steps of a BaseConfig [c] of an object
    [s] are run with the variables [configVars s c], and those are the
    variables of [c] overridden by the variables of [s]: a key that both
    maps have takes the value of the object, a key of one map only keeps
    its value, and no other key appears. *)
Theorem C1_vars_object_level_wins (s : Object.t) (c : BaseConfig.t)
    (labelsTpl : string) (opts : InputPrometheusHttpOptions.t)
    (fl : gmap string FileObjT) (persistMetrics : bool)
    (input : InputPrometheusHttp.t) (k : string) :
  buildConfig s labelsTpl opts fl persistMetrics input c =
    buildMetrics
      (buildAvailability
         (buildQualities input s (BaseConfig.Qualities c) labelsTpl opts
            (BaseConfig.Labels c) (configVars s c) fl persistMetrics)
         s (BaseConfig.Availability c) labelsTpl opts
         (BaseConfig.Labels c) (configVars s c) fl persistMetrics)
      s (BaseConfig.Metrics c) labelsTpl opts
      (BaseConfig.Labels c) (configVars s c) fl persistMetrics
  ∧ configVars s c = Object.Vars s ∪ BaseConfig.Vars c
  ∧ configVars s c !! k =
      match Object.Vars s !! k with
      | Some v => Some v
      | None => BaseConfig.Vars c !! k
      end.
Proof.
  split; [reflexivity|]. unfold configVars. split.
  - apply MergeStringMaps_two.
  - apply MergeStringMaps_two_lookup.
Qed.

End metrics_vars.

Section metrics_vars_example.
Import Sample.

(** C1, as stated, fails: the key [env] is set to [config] by the
    BaseConfig and to [object] by the object, and the metric of the
    BaseConfig is built with [env] set to [object]. *)
Lemma C1_config_level_does_not_win :
  Object.Vars overlappingService !! "env" = Some "object"
  ∧ BaseConfig.Vars overlappingConfig !! "env" = Some "config"
  ∧ Object.Configs overlappingService !! "default" = Some overlappingConfig
  ∧ configVars overlappingService overlappingConfig !! "env"
      ≠ Some "config"
  ∧ InputPrometheusHttp.Metric <$>
      Inputs.PrometheusHttp (Config.Inputs
        (GenerateInputPrometheusHttpBytes newConfig
           overlappingService "" metricsOptions "svc" true).1)
    = [[("up", {[ "env" := "object" ]})]].
Proof.
  split; [done|]. split; [done|]. split; [done|]. split.
  - vm_compute. discriminate.
  - vm_compute. reflexivity.
Qed.

End metrics_vars_example.

(** ** The builders over label maps *)

Section label_builders.
Context `{Payloads, !Externals, !MapOrder, !Collaborators}.

(** Appending one record per key leaves the other lists alone. *)
Ltac fold_append keys tc :=
  revert tc; induction keys as [|k keys IH]; intros [[p d h n x]]; simpl;
  [by rewrite app_nil_r | rewrite IH; simpl; by rewrite -app_assoc].

Lemma foldl_append_DNSQuery (f : string → InputDNSQuery.t) (keys : list string)
    (tc : Config.t) :
  foldl (λ tc k, append_DNSQuery tc (f k)) tc keys =
    let i := Config.Inputs tc in
    Config.mk (Inputs.mk (Inputs.PrometheusHttp i) (Inputs.DNSQuery i ++ (f <$> keys))
      (Inputs.HTTPResponse i) (Inputs.NetResponse i) (Inputs.X509Cert i)).
Proof. fold_append keys tc. Qed.

Lemma foldl_append_HTTPResponse (f : string → InputHTTPResponse.t) (keys : list string)
    (tc : Config.t) :
  foldl (λ tc k, append_HTTPResponse tc (f k)) tc keys =
    let i := Config.Inputs tc in
    Config.mk (Inputs.mk (Inputs.PrometheusHttp i) (Inputs.DNSQuery i)
      (Inputs.HTTPResponse i ++ (f <$> keys)) (Inputs.NetResponse i) (Inputs.X509Cert i)).
Proof. fold_append keys tc. Qed.

Lemma foldl_append_NetResponse (f : string → InputNetResponse.t) (keys : list string)
    (tc : Config.t) :
  foldl (λ tc k, append_NetResponse tc (f k)) tc keys =
    let i := Config.Inputs tc in
    Config.mk (Inputs.mk (Inputs.PrometheusHttp i) (Inputs.DNSQuery i)
      (Inputs.HTTPResponse i) (Inputs.NetResponse i ++ (f <$> keys)) (Inputs.X509Cert i)).
Proof. fold_append keys tc. Qed.

Lemma foldl_append_X509Cert (f : string → InputX509Cert.t) (keys : list string)
    (tc : Config.t) :
  foldl (λ tc k, append_X509Cert tc (f k)) tc keys =
    let i := Config.Inputs tc in
    Config.mk (Inputs.mk (Inputs.PrometheusHttp i) (Inputs.DNSQuery i)
      (Inputs.HTTPResponse i) (Inputs.NetResponse i) (Inputs.X509Cert i ++ (f <$> keys))).
Proof. fold_append keys tc. Qed.

(** Each builder adds, to its own list, the records of the sorted keys, in
    that order. *)
Lemma DNSQuery_after (tc : Config.t) (opts : InputDNSQueryOptions.t)
    (domains : gmap string (gmap string string)) :
  Inputs.DNSQuery (Config.Inputs (GenerateInputDNSQueryBytes tc opts domains).1) =
    Inputs.DNSQuery (Config.Inputs tc)
    ++ (dnsInput opts (dnsServers opts) domains <$> sortedKeys domains).
Proof.
  unfold GenerateInputDNSQueryBytes, GetLabelsKeys. simpl.
  by rewrite foldl_append_DNSQuery sorted_range_keys.
Qed.

Lemma HTTPResponse_after (tc : Config.t) (opts : InputHTTPResponseOptions.t)
    (urls : gmap string (gmap string string)) :
  Inputs.HTTPResponse (Config.Inputs (GenerateInputHTTPResponseBytes tc opts urls).1) =
    Inputs.HTTPResponse (Config.Inputs tc) ++ (httpInput opts urls <$> sortedKeys urls).
Proof.
  unfold GenerateInputHTTPResponseBytes, GetLabelsKeys. simpl.
  by rewrite foldl_append_HTTPResponse sorted_range_keys.
Qed.

Lemma NetResponse_after (tc : Config.t) (opts : InputNetResponseOptions.t)
    (addresses : gmap string (gmap string string)) (protocol : string) :
  Inputs.NetResponse
    (Config.Inputs (GenerateInputNETResponseBytes tc opts addresses protocol).1) =
    Inputs.NetResponse (Config.Inputs tc)
    ++ (netInput opts addresses protocol <$> sortedKeys addresses).
Proof.
  unfold GenerateInputNETResponseBytes, GetLabelsKeys. simpl.
  by rewrite foldl_append_NetResponse sorted_range_keys.
Qed.

Lemma X509Cert_after (tc : Config.t) (opts : InputX509CertOptions.t)
    (addresses : gmap string (gmap string string)) :
  Inputs.X509Cert (Config.Inputs (GenerateInputX509CertBytes tc opts addresses).1) =
    Inputs.X509Cert (Config.Inputs tc) ++ (certInput opts addresses <$> sortedKeys addresses).
Proof.
  unfold GenerateInputX509CertBytes, GetLabelsKeys. simpl.
  by rewrite foldl_append_X509Cert sorted_range_keys.
Qed.

Lemma emitted_app {A} (before new : list A) : emitted before (before ++ new) = new.
Proof. apply drop_app_length. Qed.

(** The whole result of the DNS builder, with no mention of the order in
    which the runtime visits the map. *)
Lemma GenerateInputDNSQueryBytes_eq (tc : Config.t) (opts : InputDNSQueryOptions.t)
    (domains : gmap string (gmap string string)) :
  GenerateInputDNSQueryBytes tc opts domains =
    let i := Config.Inputs tc in
    let tc' :=
      Config.mk (Inputs.mk (Inputs.PrometheusHttp i)
        (Inputs.DNSQuery i ++ (dnsInput opts (dnsServers opts) domains <$> sortedKeys domains))
        (Inputs.HTTPResponse i) (Inputs.NetResponse i) (Inputs.X509Cert i)) in
    (tc', encode tc').
Proof.
  unfold GenerateInputDNSQueryBytes, GetLabelsKeys.
  by rewrite foldl_append_DNSQuery sorted_range_keys.
Qed.

End label_builders.

Section dns_builder.
Context `{Payloads, !Externals, !Collaborators}.

Lemma sortedKeys_scenario : sortedKeys scenarioDomains = ["a.com"; "b.com"].
Proof. vm_compute. reflexivity. Qed.

(** C2. Whatever orders [o1] and [o2] the runtime visits the map in, the
    DNS builder gives the same result. It appends one record per key of
    the map, the records are in the lexicographic order of their keys, the
    record of a key has that key as its only domain and the labels of the
    key as its [Tags]. For the target keys b.com (env: prod) and a.com
    (env: dev) and the default tag env, the records are the one of a.com
    then the one of b.com, each with [Include] equal to [env] and the labels
    of its key as [Tags]. *)
Theorem C2_dns_records_follow_sorted_keys (o1 o2 : MapOrder) (tc : Config.t)
    (opts : InputDNSQueryOptions.t) (domains : gmap string (gmap string string)) :
  let result := GenerateInputDNSQueryBytes (order := o1) tc opts domains in
  let old := Inputs.DNSQuery (Config.Inputs tc) in
  let new := emitted old (Inputs.DNSQuery (Config.Inputs result.1)) in
  result = GenerateInputDNSQueryBytes (order := o2) tc opts domains
  ∧ Inputs.DNSQuery (Config.Inputs result.1) = old ++ new
  ∧ List.length new = size domains
  ∧ InputDNSQuery.Domains <$> new = (λ k, [k]) <$> sortedKeys domains
  ∧ StronglySorted string_le (sortedKeys domains)
  ∧ NoDup (sortedKeys domains)
  ∧ (∀ k, k ∈ sortedKeys domains ↔ is_Some (domains !! k))
  ∧ Forall (λ r, ∃ k, InputDNSQuery.Domains r = [k]
                      ∧ domains !! k = Some (InputDNSQuery.Tags r)) new
  ∧ ∀ interval servers network doms recordType port timeout,
      dnsView <$>
        emitted old
          (Inputs.DNSQuery (Config.Inputs
             (GenerateInputDNSQueryBytes (order := o1) tc
                (InputDNSQueryOptions.mk interval servers network doms recordType
                   port timeout ["env"])
                scenarioDomains).1))
      = [ (["a.com"], ["env"], {[ "env" := "dev" ]});
          (["b.com"], ["env"], {[ "env" := "prod" ]}) ].
Proof.
  intros result old new. subst result old new.
  rewrite !DNSQuery_after !emitted_app.
  split; [by rewrite !GenerateInputDNSQueryBytes_eq|].
  split; [done|].
  split; [by rewrite length_fmap sortedKeys_length|].
  split; [by rewrite -list_fmap_compose|].
  split; [apply sort_Strings_sorted|].
  split; [apply sortedKeys_NoDup|].
  split; [apply sortedKeys_elem_of|].
  split.
  - apply Forall_fmap, Forall_forall. intros k Hk. exists k. simpl. split; [done|].
    apply sortedKeys_elem_of in Hk as [labels ->]. done.
  - intros. rewrite DNSQuery_after emitted_app sortedKeys_scenario. reflexivity.
Qed.

End dns_builder.

(** ** The [Include] list of the records *)

Section include_tags.
Context `{Payloads, !Externals, !MapOrder, !Collaborators}.

Lemma updateIncludeTags_NoDup (include tags : list string) :
  NoDup include → NoDup (updateIncludeTags include tags).
Proof.
  unfold updateIncludeTags. revert include.
  induction tags as [|t tags IH]; intros include Hnd; simpl; [done|].
  apply IH. case_decide; [done|].
  apply NoDup_app. split; [done|]. split.
  - intros x Hx ->%list_elem_of_singleton. done.
  - apply NoDup_singleton.
Qed.

Lemma updateIncludeTags_elem_of (include tags : list string) (x : string) :
  x ∈ updateIncludeTags include tags ↔ x ∈ include ∨ x ∈ tags.
Proof.
  unfold updateIncludeTags. revert include.
  induction tags as [|t tags IH]; intros include; simpl.
  - rewrite elem_of_nil. tauto.
  - rewrite IH elem_of_cons. case_decide.
    + split; [tauto|]. intros [?|[->|?]]; tauto.
    + rewrite elem_of_app list_elem_of_singleton. tauto.
Qed.

(** Adding names to a duplicate-free [Include] and sorting gives the sorted,
    de-duplicated union. *)
Lemma sort_updateIncludeTags (include tags : list string) :
  NoDup include →
  sort_Strings (updateIncludeTags include tags) = sortedUnion include tags.
Proof.
  intros Hnd. unfold sortedUnion, sortedSet.
  apply sort_Strings_order_irrelevant, NoDup_Permutation.
  - by apply updateIncludeTags_NoDup.
  - apply NoDup_remove_dups.
  - intros x. rewrite updateIncludeTags_elem_of elem_of_remove_dups elem_of_app. done.
Qed.

Lemma sort_updateIncludeTags_fresh (tags : list string) :
  sort_Strings (updateIncludeTags [] tags) = sortedSet tags.
Proof. rewrite sort_updateIncludeTags; [done | apply NoDup_nil_2]. Qed.

(** Two lists with the same names have the same sorted, de-duplicated list. *)
Lemma sortedSet_same_names (l1 l2 : list string) :
  (∀ x, x ∈ l1 ↔ x ∈ l2) → sortedSet l1 = sortedSet l2.
Proof.
  intros Hsame. unfold sortedSet.
  apply sort_Strings_order_irrelevant, NoDup_Permutation; [apply NoDup_remove_dups..|].
  intros x. by rewrite !elem_of_remove_dups.
Qed.


End include_tags.

Section include_tags_example.
Import Sample.



End include_tags_example.

(** ** The world: logging leaves the file system alone *)

Section world_facts.
Context `{Payloads, !Externals}.

Lemma noFileOperation_nil : noFileOperation [].
Proof. intros path bs checksum Hin. by apply elem_of_nil in Hin. Qed.

Lemma noFileOperation_app (evs1 evs2 : list Event) :
  noFileOperation evs1 → noFileOperation evs2 → noFileOperation (evs1 ++ evs2).
Proof.
  intros H1 H2 path bs checksum [Hin|Hin]%elem_of_app; [by eapply H1 | by eapply H2].
Qed.

Lemma noFileOperation_debug (obj : LogArg) (args : list LogArg) :
  noFileOperation [LogDebug obj args].
Proof. intros path bs checksum Hin%list_elem_of_singleton. discriminate. Qed.

Lemma noFileOperation_error (obj : LogArg) (args : list LogArg) :
  noFileOperation [LogError obj args].
Proof. intros path bs checksum Hin%list_elem_of_singleton. discriminate. Qed.

Lemma onlyLogs_refl (w : World) : onlyLogs w w.
Proof.
  split; [done|]. exists []. split; [by rewrite app_nil_r | apply noFileOperation_nil].
Qed.

Lemma onlyLogs_trans (w1 w2 w3 : World) :
  onlyLogs w1 w2 → onlyLogs w2 w3 → onlyLogs w1 w3.
Proof.
  intros [Hfs1 (evs1 & Ht1 & Hno1)] [Hfs2 (evs2 & Ht2 & Hno2)]. split; [congruence|].
  exists (evs1 ++ evs2). split.
  - by rewrite Ht2 Ht1 app_assoc.
  - by apply noFileOperation_app.
Qed.

Lemma logger_Debug_onlyLogs (obj : LogArg) (args : list LogArg) (w : World) :
  onlyLogs w (logger_Debug obj args w).
Proof. split; [done|]. eexists. split; [done | apply noFileOperation_debug]. Qed.

Lemma logger_Error_onlyLogs (obj : LogArg) (args : list LogArg) (w : World) :
  onlyLogs w (logger_Error obj args w).
Proof. split; [done|]. eexists. split; [done | apply noFileOperation_error]. Qed.

(** Rendering a path may log an error and does nothing else. *)
Lemma Render_onlyLogs (def : string) (obj : gmap string string) (w : World) :
  onlyLogs w (Render def obj w).1.
Proof.
  unfold Render. destruct (NewTextTemplate def) as [tpl [e|]]; simpl;
    [apply logger_Error_onlyLogs|].
  destruct (RenderTemplate tpl def obj) as [s [e|]]; simpl;
    [apply logger_Error_onlyLogs | apply onlyLogs_refl].
Qed.

(** The guard of the gate, [bs == nil || len(bs) == 0], holds for the nil
    slice and for the empty one, and for no other. *)
Lemma gate_guard (bs : option (list byte)) :
  bool_decide (bs = None) || (slice_len bs =? 0) = true ↔ bs = None ∨ bs = Some [].
Proof.
  destruct bs as [[|b l]|]; simpl; split; try done; try (by left); try (by right).
  intros [?|?]; done.
Qed.

End world_facts.

(** ** The persistence gate *)

Section persistence_gate.
Context `{Payloads, !Externals}.

Lemma bytes_Join_two (a b sep : list byte) : bytes_Join [a; b] sep = a ++ sep ++ b.
Proof. reflexivity. Qed.

(** C5, as amended. Given generated bytes [B] that are not empty, the gate
    hands to the checksum, compare and write step the bytes [B], a line feed
    and the template when [utils.IsEmpty] does not hold of the template, and
    [B] itself when it does; that step is called once, with the path and the
    checksum flag of the call, and it alone decides the file system. So the
    merged content is [B] for the empty template, as [utils.IsEmpty] holds
    of the empty string, and it is [B], a line feed and the template for
    every template that is not empty where [utils.IsEmpty] holds of the
    empty string alone; a template of which it holds, be it not empty, is
    left out. *)
Theorem C5_template_is_appended_after_a_line_feed (name template conf : string)
    (checksum : bool) (B : list byte) (w : World) :
  B ≠ [] →
  let merged :=
    if utils_IsEmpty template then B
    else B ++ [x0a] ++ list_byte_of_string template in
  let w' := CreateWithTemplateIfCheckSumIsDifferent name template conf checksum (Some B) w in
  fs w' = (FileWriteWithCheckSum (fs w) conf merged checksum).1
  ∧ (∃ line args,
       trace w' = trace w ++ [CallFileWriteWithCheckSum conf merged checksum;
                              LogDebug line args])
  ∧ (utils_IsEmpty "" = true → template = "" → merged = B)
  ∧ ((∀ T, utils_IsEmpty T = true → T = "") → template ≠ "" →
     merged = B ++ [x0a] ++ list_byte_of_string template)
  ∧ (utils_IsEmpty template = true → merged = B).
Proof.
  intros HB merged w'.
  assert (fs w' = (FileWriteWithCheckSum (fs w) conf merged checksum).1
          ∧ ∃ line args,
              trace w' = trace w ++ [CallFileWriteWithCheckSum conf merged checksum;
                                     LogDebug line args]) as [Hfs Htrace].
  { subst w'. unfold CreateWithTemplateIfCheckSumIsDifferent.
    destruct B as [|b B]; [done|]. subst merged.
    destruct (utils_IsEmpty template); simpl; unfold call_FileWriteWithCheckSum;
      destruct (FileWriteWithCheckSum (fs w) conf _ checksum) as [fs' [ex [e|]]];
      try destruct ex; simpl; (split; [done|]); do 2 eexists; by rewrite -app_assoc. }
  split; [done|]. split; [done|]. subst merged. split; [|split].
  - intros Hempty ->. by rewrite Hempty.
  - intros Honly Htemplate. destruct (utils_IsEmpty template) eqn:Hempty; [|done].
    by apply Honly in Hempty.
  - by intros ->.
Qed.

(** C6. With generated bytes that are nil or empty the gate only logs, at
    level debug, that there is no configuration: the checksum, compare and
    write step is not called and the file system is as before, with or
    without a template. *)
Theorem C6_empty_bytes_are_skipped (name template conf : string) (checksum : bool)
    (bs : option (list byte)) (w : World) :
  bs = None ∨ bs = Some [] →
  let w' := CreateWithTemplateIfCheckSumIsDifferent name template conf checksum bs w in
  w' = logger_Debug (ArgString "%s: No query config") [ArgString name] w
  ∧ fs w' = fs w
  ∧ trace w' = trace w ++ [LogDebug (ArgString "%s: No query config") [ArgString name]]
  ∧ onlyLogs w w'.
Proof.
  intros Hbs w'.
  assert (w' = logger_Debug (ArgString "%s: No query config") [ArgString name] w) as ->.
  { subst w'. by destruct Hbs as [-> | ->]. }
  split; [done|]. split; [done|]. split; [done|]. apply logger_Debug_onlyLogs.
Qed.

(** C9. [CreateIfCheckSumIsDifferent] is [CreateWithTemplateIfCheckSumIsDifferent]
    with the empty template: for all arguments and in every world both lead
    to the same world, that is the same file system, the same calls and the
    same lines logged. *)
Theorem C9_create_is_create_with_empty_template (name conf : string) (checksum : bool)
    (bs : option (list byte)) (w : World) :
  CreateIfCheckSumIsDifferent name conf checksum bs w =
    CreateWithTemplateIfCheckSumIsDifferent name "" conf checksum bs w
  ∧ fs (CreateIfCheckSumIsDifferent name conf checksum bs w) =
      fs (CreateWithTemplateIfCheckSumIsDifferent name "" conf checksum bs w)
  ∧ trace (CreateIfCheckSumIsDifferent name conf checksum bs w) =
      trace (CreateWithTemplateIfCheckSumIsDifferent name "" conf checksum bs w).
Proof. done. Qed.

End persistence_gate.

(** ** The metrics builder: the error on no metric *)

Section metrics_error.
Context `{Payloads, !Externals, !MapOrder, !Collaborators}.

(** The error of a builder is the encoder's, when encoding is reached. *)
Lemma encode_cases (tc : Config.t) :
  (∃ b, toml_Encode tc = (b, None) ∧ encode tc = (Some b, None))
  ∨ (∃ b e, toml_Encode tc = (b, Some e) ∧ encode tc = (None, Some (lib_error e))).
Proof.
  unfold encode. destruct (toml_Encode tc) as [b [e|]]; [right|left]; eauto.
Qed.

Lemma encode_error (tc : Config.t) (e : error) :
  (encode tc).2 = Some e → ∃ b le, e = lib_error le ∧ toml_Encode tc = (b, Some le).
Proof.
  destruct (encode_cases tc) as [(b & _ & ->)|(b & le & Hle & ->)]; simpl; [done|].
  intros [= <-]. eauto.
Qed.

(** Encoding returns an error exactly when the encoder does. *)
Lemma encode_is_Some (tc : Config.t) :
  is_Some (encode tc).2 ↔ is_Some (toml_Encode tc).2.
Proof.
  unfold encode. destruct (toml_Encode tc) as [b [e|]]; simpl; [|done].
  split; intros _; by eexists.
Qed.

(** Without a metric the builder stops before it touches the container. *)
Lemma metrics_builder_no_metric (tc : Config.t) (s : Object.t) (labelsTpl : string)
    (opts : InputPrometheusHttpOptions.t) (name : string) (persistMetrics : bool) :
  InputPrometheusHttp.Metric (buildInput s labelsTpl opts name persistMetrics) = [] →
  GenerateInputPrometheusHttpBytes tc s labelsTpl opts name persistMetrics =
    (tc, (None, Some (errors_New "Metrics are not found."))).
Proof. intros Hm. unfold GenerateInputPrometheusHttpBytes. by rewrite Hm. Qed.

(** With a metric it appends the record and encodes the container. *)
Lemma metrics_builder_some_metric (tc : Config.t) (s : Object.t) (labelsTpl : string)
    (opts : InputPrometheusHttpOptions.t) (name : string) (persistMetrics : bool) :
  InputPrometheusHttp.Metric (buildInput s labelsTpl opts name persistMetrics) ≠ [] →
  let result := GenerateInputPrometheusHttpBytes tc s labelsTpl opts name persistMetrics in
  result.2 = encode result.1
  ∧ ∃ input, Inputs.PrometheusHttp (Config.Inputs result.1) =
               Inputs.PrometheusHttp (Config.Inputs tc) ++ [input].
Proof.
  intros Hm. unfold GenerateInputPrometheusHttpBytes.
  destruct (InputPrometheusHttp.Metric _) as [|m ms]; [done|]. simpl.
  split; [done|]. by eexists.
Qed.

Lemma metrics_builder_error_cases (tc : Config.t) (s : Object.t) (labelsTpl : string)
    (opts : InputPrometheusHttpOptions.t) (name : string) (persistMetrics : bool) :
  let result := GenerateInputPrometheusHttpBytes tc s labelsTpl opts name persistMetrics in
  result.2.2 = Some (errors_New "Metrics are not found.") ↔
  InputPrometheusHttp.Metric (buildInput s labelsTpl opts name persistMetrics) = [].
Proof.
  simpl. split.
  - intros Herr.
    destruct (InputPrometheusHttp.Metric (buildInput s labelsTpl opts name persistMetrics))
      as [|m ms] eqn:Hm; [done|].
    destruct (metrics_builder_some_metric tc s labelsTpl opts name persistMetrics)
      as [Henc _]; [by rewrite Hm|].
    simpl in Henc. rewrite Henc in Herr.
    apply encode_error in Herr as (b & le & Hle & _). discriminate.
  - intros Hm. by rewrite metrics_builder_no_metric.
Qed.

(** The four builders over label maps add nothing for an empty map. *)
Lemma label_builders_empty (tc : Config.t) :
  (∀ opts, GenerateInputDNSQueryBytes tc opts ∅ = (tc, encode tc))
  ∧ (∀ opts, GenerateInputHTTPResponseBytes tc opts ∅ = (tc, encode tc))
  ∧ (∀ opts protocol, GenerateInputNETResponseBytes tc opts ∅ protocol = (tc, encode tc))
  ∧ (∀ opts, GenerateInputX509CertBytes tc opts ∅ = (tc, encode tc)).
Proof.
  unfold GenerateInputDNSQueryBytes, GenerateInputHTTPResponseBytes,
    GenerateInputNETResponseBytes, GenerateInputX509CertBytes, GetLabelsKeys.
  rewrite sorted_range_keys sortedKeys_empty. done.
Qed.

(** When the builder fails, the loop of [processSignal] logs the error for
    the service and goes on: the gate is not called. *)
Lemma processService_on_error (persistMetrics : bool) (t : Telegraf.t) (source : string)
    (w : World) (k : string) (s1 : Object.t) (e : error) :
  let sg := TelegrafOptions.Signal (Telegraf.options t) in
  let rendered := Render (TelegrafSignalOptions.Template sg) (Object.Vars s1) w in
  (GenerateInputPrometheusHttpBytes newConfig s1 (TelegrafSignalOptions.Tags sg)
     (TelegrafSignalOptions.InputPrometheusHttpOptions sg) rendered.2 persistMetrics).2.2
    = Some e →
  processService persistMetrics t source w k s1 =
    logger_Error (ArgString "%s: Service %s error: %s")
      [ArgString source; ArgString k; ArgError e]
      (logger_Debug (ArgString "%s: Found metrics: %v")
         [ArgString source; ArgStrings (Object.Metrics s1)]
         (logger_Debug (ArgString "%s: Processing service: %s for path: %s")
            [ArgString source; ArgString k; ArgString rendered.2] rendered.1)).
Proof.
  simpl. unfold processService.
  destruct (Render _ _ w) as [w1 path]. simpl.
  destruct (GenerateInputPrometheusHttpBytes _ _ _ _ _ _) as [tc' [bs err]]. simpl.
  by intros ->.
Qed.

End metrics_error.

Section metrics_error_claims.
Context `{Payloads, !Externals, !MapOrder, !Collaborators}.

(** C4, as amended. The metrics builder returns an error exactly when the
    build steps of all the BaseConfigs of the object have left no metric in
    the record, or the TOML encoder fails on the container to which the
    record was added. The error is its own, that metrics are not found,
    exactly in the first case, and the encoder's in the second; so, where
    the encoder does not fail, the builder returns an error if and only if
    no metric was generated. When the builder returns an error for a
    service, whichever it is, the Signal path of the sink logs it and leaves
    the file system alone, without any call of the checksum, compare and
    write step. The DNS, HTTP-response, net-response and certificate
    builders, given an empty map, add no record and return what the encoder
    gives for the container as it was: an error exactly when the encoder
    fails, with nil bytes, and the bytes and no error otherwise. *)
Theorem C4_metrics_builder_fails_iff_no_metric :
  (∀ tc s labelsTpl opts name persistMetrics,
     let built := buildInput s labelsTpl opts name persistMetrics in
     let result := GenerateInputPrometheusHttpBytes tc s labelsTpl opts name persistMetrics in
     (result.2.2 = Some (errors_New "Metrics are not found.")
      ↔ InputPrometheusHttp.Metric built = [])
     ∧ (is_Some result.2.2
        ↔ InputPrometheusHttp.Metric built = [] ∨ is_Some (toml_Encode result.1).2)
     ∧ ((toml_Encode result.1).2 = None →
        (is_Some result.2.2 ↔ InputPrometheusHttp.Metric built = []))
     ∧ (∀ e, result.2.2 = Some e →
             e = errors_New "Metrics are not found."
             ∨ ∃ b le, e = lib_error le ∧ toml_Encode result.1 = (b, Some le))
     ∧ (InputPrometheusHttp.Metric built ≠ [] → result.2 = encode result.1))
  ∧ (∀ persistMetrics t source w k s1 e,
       let sg := TelegrafOptions.Signal (Telegraf.options t) in
       let rendered := Render (TelegrafSignalOptions.Template sg) (Object.Vars s1) w in
       (GenerateInputPrometheusHttpBytes newConfig s1 (TelegrafSignalOptions.Tags sg)
          (TelegrafSignalOptions.InputPrometheusHttpOptions sg) rendered.2
          persistMetrics).2.2 = Some e →
       let w' := processService persistMetrics t source w k s1 in
       w' = logger_Error (ArgString "%s: Service %s error: %s")
              [ArgString source; ArgString k; ArgError e]
              (logger_Debug (ArgString "%s: Found metrics: %v")
                 [ArgString source; ArgStrings (Object.Metrics s1)]
                 (logger_Debug (ArgString "%s: Processing service: %s for path: %s")
                    [ArgString source; ArgString k; ArgString rendered.2] rendered.1))
       ∧ onlyLogs w w')
  ∧ (∀ tc,
       (∀ opts, GenerateInputDNSQueryBytes tc opts ∅ = (tc, encode tc))
       ∧ (∀ opts, GenerateInputHTTPResponseBytes tc opts ∅ = (tc, encode tc))
       ∧ (∀ opts protocol, GenerateInputNETResponseBytes tc opts ∅ protocol = (tc, encode tc))
       ∧ (∀ opts, GenerateInputX509CertBytes tc opts ∅ = (tc, encode tc))
       ∧ (is_Some (encode tc).2 ↔ is_Some (toml_Encode tc).2)
       ∧ ((∃ b, toml_Encode tc = (b, None) ∧ encode tc = (Some b, None))
          ∨ (∃ b le, toml_Encode tc = (b, Some le)
                     ∧ encode tc = (None, Some (lib_error le))))).
Proof.
  split; [|split].
  - intros tc s labelsTpl opts name persistMetrics built result.
    split; [apply metrics_builder_error_cases|].
    assert (is_Some result.2.2
            ↔ InputPrometheusHttp.Metric built = [] ∨ is_Some (toml_Encode result.1).2)
      as Herr.
    { subst result built.
      destruct (InputPrometheusHttp.Metric (buildInput s labelsTpl opts name persistMetrics))
        as [|m ms] eqn:Hm.
      - rewrite metrics_builder_no_metric //. simpl. split; [by left | by eexists].
      - destruct (metrics_builder_some_metric tc s labelsTpl opts name persistMetrics)
          as [Henc _]; [by rewrite Hm|].
        simpl in Henc. rewrite Henc encode_is_Some. split; [by right|].
        by intros [?|?]. }
    split; [done|]. split.
    { intros Hok. rewrite Herr Hok. split; [|by left].
      intros [?|[? ?]]; done. }
    split.
    + intros e He. subst result built.
      destruct (InputPrometheusHttp.Metric (buildInput s labelsTpl opts name persistMetrics))
        as [|m ms] eqn:Hm.
      * rewrite metrics_builder_no_metric // in He. left. by injection He as <-.
      * destruct (metrics_builder_some_metric tc s labelsTpl opts name persistMetrics)
          as [Henc _]; [by rewrite Hm|].
        simpl in Henc. rewrite Henc in He. right. by apply encode_error.
    + intros Hm. by apply metrics_builder_some_metric.
  - intros persistMetrics t source w k s1 e sg rendered Herr w'. subst w'.
    rewrite (processService_on_error _ _ _ _ _ _ e) //. split; [done|].
    eapply onlyLogs_trans; [apply Render_onlyLogs|].
    eapply onlyLogs_trans; [apply logger_Debug_onlyLogs|].
    eapply onlyLogs_trans; [apply logger_Debug_onlyLogs|].
    apply logger_Error_onlyLogs.
  - intros tc. destruct (label_builders_empty tc) as (Hd & Hh & Hn & Hx).
    do 4 (split; [done|]). split; [apply encode_is_Some | apply encode_cases].
Qed.

(** C8. When the metrics builder returns the error that metrics are not
    found, the container is returned as it was given, so its list of
    metrics records has not grown, and the bytes returned are nil. *)
Theorem C8_no_metric_error_leaves_container_unchanged (tc : Config.t) (s : Object.t)
    (labelsTpl : string) (opts : InputPrometheusHttpOptions.t) (name : string)
    (persistMetrics : bool) :
  let result := GenerateInputPrometheusHttpBytes tc s labelsTpl opts name persistMetrics in
  result.2.2 = Some (errors_New "Metrics are not found.") →
  result.1 = tc
  ∧ Inputs.PrometheusHttp (Config.Inputs result.1) = Inputs.PrometheusHttp (Config.Inputs tc)
  ∧ result.2.1 = None.
Proof.
  intros result Herr. subst result.
  apply metrics_builder_error_cases in Herr.
  by rewrite metrics_builder_no_metric.
Qed.

End metrics_error_claims.

(** ** The sink dispatcher *)

Section dispatcher.
Context `{Payloads, !Externals, !MapOrder, !Collaborators}.

(** C7. For a discovery whose name is none of Signal, Cert, DNS, HTTP and
    TCP, [Process] logs two lines at level debug, the number of objects and
    that the name has no support, and does nothing else: the sink is as
    before, the file system was left alone and not asked anything, and no
    line is logged at level error. *)
Theorem C7_unknown_discovery_is_only_logged (persistMetrics : bool) (t : Telegraf.t)
    (d : Discovery.t) (so : SinkObject.t) (w : World) :
  unknownName (Discovery.Name d) →
  let dname := Discovery.Name d in
  let lines :=
    [LogDebug (ArgString "Telegraf has to process %d objects from %s...")
       [ArgInt (len_SinkMap (SinkObject.Map so)); ArgString dname];
     LogDebug (ArgString "Telegraf has no support for %s") [ArgString dname]] in
  let result := Process persistMetrics t d so w in
  result.1 = t
  ∧ fs result.2 = fs w
  ∧ trace result.2 = trace w ++ lines
  ∧ noFileOperation lines
  ∧ noErrorLogged lines.
Proof.
  intros (Hs & Hc & Hd & Hh & Ht) dname lines result. subst result. unfold Process.
  fold dname. repeat (case_decide; [done|]). simpl.
  split; [done|]. split; [done|]. split; [by rewrite -app_assoc|]. split.
  - intros path bs checksum [Hin|Hin%list_elem_of_singleton]%elem_of_cons; discriminate.
  - intros obj args [Hin|Hin%list_elem_of_singleton]%elem_of_cons; discriminate.
Qed.

End dispatcher.

(** ** The HTTP-response builder *)

Section http_builder.
Context `{Payloads, !Externals, !MapOrder, !Collaborators}.

(** C10. Every record emitted by the HTTP-response builder has
    [InsecureSkipVerify] set to true, whatever the options and the labels
    are: the record made for a key has it set before the options are
    looked at for its tags. *)
Theorem C10_http_records_skip_tls_verification (tc : Config.t)
    (opts : InputHTTPResponseOptions.t) (urls : gmap string (gmap string string)) :
  Forall (λ r, InputHTTPResponse.InsecureSkipVerify r = true)
    (emitted (Inputs.HTTPResponse (Config.Inputs tc))
       (Inputs.HTTPResponse (Config.Inputs (GenerateInputHTTPResponseBytes tc opts urls).1)))
  ∧ ∀ k, InputHTTPResponse.InsecureSkipVerify (httpInput opts urls k) = true.
Proof.
  split; [|done].
  rewrite HTTPResponse_after emitted_app. by apply Forall_fmap, Forall_forall.
Qed.

End http_builder.

(** ** The theorems at concrete inputs *)

Section examples.
Import Sample.

(** C4 at the service with no metric: the builder returns the error that
    metrics are not found. *)
Lemma C4_at_idle_service :
  InputPrometheusHttp.Metric (buildInput idleService "" metricsOptions "svc" true) = []
  ∧ (GenerateInputPrometheusHttpBytes newConfig idleService "" metricsOptions "svc"
       true).2.2 = Some (errors_New "Metrics are not found.").
Proof.
  split; [vm_compute; reflexivity|].
  apply (proj1 (proj1 C4_metrics_builder_fails_iff_no_metric
                  newConfig idleService "" metricsOptions "svc" true)).
  vm_compute. reflexivity.
Defined.

(** C5 at the bytes of the letter a and a template that is not empty. *)
Lemma C5_at_a_template :
  [x61] ≠ []
  ∧ let merged :=
      if utils_IsEmpty "static" then [x61]
      else [x61] ++ [x0a] ++ list_byte_of_string "static" in
    let w' :=
      CreateWithTemplateIfCheckSumIsDifferent "src" "static" "dns.conf" true
        (Some [x61]) emptyWorld in
    fs w' = (FileWriteWithCheckSum (fs emptyWorld) "dns.conf" merged true).1
    ∧ (∃ line args,
         trace w' = trace emptyWorld
                    ++ [CallFileWriteWithCheckSum "dns.conf" merged true; LogDebug line args])
    ∧ (utils_IsEmpty "" = true → "static" = "" → merged = [x61])
    ∧ ((∀ T, utils_IsEmpty T = true → T = "") → "static" ≠ "" →
       merged = [x61] ++ [x0a] ++ list_byte_of_string "static")
    ∧ (utils_IsEmpty "static" = true → merged = [x61]).
Proof.
  split; [discriminate|].
  apply (C5_template_is_appended_after_a_line_feed "src" "static" "dns.conf" true
           [x61] emptyWorld).
  discriminate.
Defined.

(** C5, as stated, fails at a template of one blank, of which
    [utils.IsEmpty] holds: the template is not empty, and the write step is
    given the bytes of the letter a alone, not followed by a line feed and
    the blank. *)
Lemma C5_blank_template_is_not_appended :
  trace (CreateWithTemplateIfCheckSumIsDifferent "src" " " "dns.conf" true
           (Some [x61]) emptyWorld)
  = [CallFileWriteWithCheckSum "dns.conf" [x61] true;
     LogDebug (ArgString "%s: File %s created or replaced")
       [ArgString "src"; ArgString "dns.conf"]]
  ∧ utils_IsEmpty " " = true
  ∧ " " ≠ ""
  ∧ [x61] ++ [x0a] ++ list_byte_of_string " " ≠ [x61].
Proof.
  split; [vm_compute; reflexivity|]. split; [vm_compute; reflexivity|].
  split; discriminate.
Qed.

(** C4, as stated, fails where the encoder fails: for the service with the
    metric up the build steps leave one metric in the record and the metrics
    builder returns an error, the encoder's; and the DNS builder, given the
    empty map, adds no record and returns that error too. *)
Lemma C4_encoder_failure_is_an_error :
  List.length
    (InputPrometheusHttp.Metric
       (buildInput (collab := failingEncoder) busyService "" metricsOptions "svc" true)) = 1
  ∧ (GenerateInputPrometheusHttpBytes (collab := failingEncoder) newConfig busyService ""
       metricsOptions "svc" true).2
    = (None, Some (lib_error "unsupported type"))
  ∧ GenerateInputDNSQueryBytes (collab := failingEncoder) newConfig (dnsOptions []) ∅
    = (newConfig, (None, Some (lib_error "unsupported type")))
  ∧ ¬ (is_Some (GenerateInputPrometheusHttpBytes (collab := failingEncoder) newConfig
                  busyService "" metricsOptions "svc" true).2.2
       ↔ InputPrometheusHttp.Metric
           (buildInput (collab := failingEncoder) busyService "" metricsOptions "svc" true)
         = []).
Proof.
  split; [vm_compute; reflexivity|]. split; [vm_compute; reflexivity|].
  split; [vm_compute; reflexivity|].
  intros [Herr _]. assert (Hsome : is_Some (Some (lib_error "unsupported type" : error))).
  { by eexists. }
  apply Herr in Hsome. vm_compute in Hsome. discriminate.
Qed.

(** C6 at the nil slice, with a template. *)
Lemma C6_at_nil_bytes :
  let w' :=
    CreateWithTemplateIfCheckSumIsDifferent "src" "static" "dns.conf" true None emptyWorld in
  w' = logger_Debug (ArgString "%s: No query config") [ArgString "src"] emptyWorld
  ∧ fs w' = fs emptyWorld
  ∧ trace w' = trace emptyWorld
               ++ [LogDebug (ArgString "%s: No query config") [ArgString "src"]]
  ∧ onlyLogs emptyWorld w'.
Proof.
  apply (C6_empty_bytes_are_skipped "src" "static" "dns.conf" true None emptyWorld).
  left. reflexivity.
Defined.

(** C7 at a discovery named PubSub. *)
Lemma C7_at_pubsub :
  unknownName "PubSub"
  ∧ let d := Discovery.mk "PubSub" "pubsub" in
    let so := SinkObject.mk scenarioDomains OptionsOther in
    let lines :=
      [LogDebug (ArgString "Telegraf has to process %d objects from %s...")
         [ArgInt 2; ArgString "PubSub"];
       LogDebug (ArgString "Telegraf has no support for %s") [ArgString "PubSub"]] in
    let result := Process true telegrafSink d so emptyWorld in
    result.1 = telegrafSink
    ∧ fs result.2 = fs emptyWorld
    ∧ trace result.2 = trace emptyWorld ++ lines
    ∧ noFileOperation lines
    ∧ noErrorLogged lines.
Proof.
  assert (unknownName "PubSub") as Hname by (repeat split; discriminate).
  split; [exact Hname|].
  exact (C7_unknown_discovery_is_only_logged true telegrafSink
           (Discovery.mk "PubSub" "pubsub") (SinkObject.mk scenarioDomains OptionsOther)
           emptyWorld Hname).
Defined.

(** C8 at the service with no metric. *)
Lemma C8_at_idle_service :
  let result :=
    GenerateInputPrometheusHttpBytes newConfig idleService "" metricsOptions "svc" true in
  result.2.2 = Some (errors_New "Metrics are not found.")
  ∧ result.1 = newConfig
  ∧ Inputs.PrometheusHttp (Config.Inputs result.1) = []
  ∧ result.2.1 = None.
Proof.
  split; [vm_compute; reflexivity|].
  apply (C8_no_metric_error_leaves_container_unchanged newConfig idleService ""
           metricsOptions "svc" true).
  vm_compute. reflexivity.
Defined.

(** The scenario of the DNS builder under two runtimes that visit the map
    in opposite orders. *)
Example dns_scenario_under_opposite_orders :
  (map_range (MapOrder := canonical_order) scenarioDomains).*1 = ["a.com"; "b.com"]
  ∧ (map_range (MapOrder := reversed_order) scenarioDomains).*1 = ["b.com"; "a.com"]
  ∧ GenerateInputDNSQueryBytes (order := canonical_order) newConfig (dnsOptions ["env"])
      scenarioDomains
    = GenerateInputDNSQueryBytes (order := reversed_order) newConfig (dnsOptions ["env"])
        scenarioDomains
  ∧ dnsView <$>
      Inputs.DNSQuery (Config.Inputs
        (GenerateInputDNSQueryBytes (order := reversed_order) newConfig
           (dnsOptions ["env"]) scenarioDomains).1)
    = [ (["a.com"], ["env"], {[ "env" := "dev" ]});
        (["b.com"], ["env"], {[ "env" := "prod" ]}) ].
Proof. repeat split; vm_compute; reflexivity. Qed.

(** A run of the sink on the scenario: the first run writes the file, the
    second finds it unchanged. *)
Example dns_sink_runs_twice :
  let d := Discovery.mk "DNS" "prometheus" in
  let so := SinkObject.mk scenarioDomains OptionsOther in
  let w1 := (Process true telegrafSink d so emptyWorld).2 in
  let w2 := (Process true telegrafSink d so w1).2 in
  fs w1 !! "dns.conf" = Some (list_byte_of_string "a.com" ++ [x0a]
                              ++ list_byte_of_string "b.com" ++ [x0a])
  ∧ fs w2 = fs w1
  ∧ last (trace w1) = Some (LogDebug (ArgString "%s: File %s created or replaced")
                              [ArgString "prometheus"; ArgString "dns.conf"])
  ∧ last (trace w2) = Some (LogDebug (ArgString "%s: File %s exists, skipped")
                              [ArgString "prometheus"; ArgString "dns.conf"]).
Proof. repeat split; vm_compute; reflexivity. Qed.

End examples.

(** * More of the code *)

Import Observations.

(** ** Package [common]: merging and rebuilding maps *)

Section merging.
Context `{MapOrder}.

(** Merging into a map that has entries already: those entries stay unless
    a merged map has their key. *)
Lemma foldl_copy_into {A} (maps : list (gmap string A)) (r : gmap string A) :
  foldl copy_into r maps = foldl copy_into ∅ maps ∪ r.
Proof.
  revert r. induction maps as [|m maps IH]; intros r; simpl.
  - by rewrite left_id_L.
  - rewrite IH (IH (copy_into ∅ m)) !copy_into_union right_id_L.
    by rewrite assoc_L.
Qed.

Lemma merge_app {A} (l1 l2 : list (gmap string A)) :
  foldl copy_into ∅ (l1 ++ l2) = foldl copy_into ∅ l2 ∪ foldl copy_into ∅ l1.
Proof. by rewrite foldl_app foldl_copy_into. Qed.

Lemma merge_snoc_lookup {A} (maps : list (gmap string A)) (m : gmap string A)
    (k : string) :
  foldl copy_into ∅ (maps ++ [m]) !! k =
    match m !! k with
    | Some v => Some v
    | None => foldl copy_into ∅ maps !! k
    end.
Proof.
  rewrite merge_app. simpl. rewrite copy_into_union right_id_L lookup_union.
  destruct (m !! k), (foldl copy_into ∅ maps !! k); done.
Qed.

Lemma merge_is_Some {A} (maps : list (gmap string A)) (k : string) :
  is_Some (foldl copy_into ∅ maps !! k) ↔ ∃ m, m ∈ maps ∧ is_Some (m !! k).
Proof.
  induction maps as [|m maps IH] using rev_ind.
  - simpl. rewrite lookup_empty. split; [by intros [? ?]|].
    intros (m & Hm & _). by apply elem_of_nil in Hm.
  - rewrite merge_snoc_lookup. split.
    + destruct (m !! k) as [v|] eqn:Hk.
      * intros _. exists m. rewrite elem_of_app list_elem_of_singleton Hk. eauto.
      * intros (m' & Hm' & Hs)%IH. exists m'. rewrite elem_of_app. eauto.
    + intros (m' & [Hm'|Heq%list_elem_of_singleton]%elem_of_app & Hs).
      * destruct (m !! k); [done|]. apply IH. eauto.
      * subst m'. destruct Hs as [v ->]. done.
Qed.

End merging.

Section merging_claims.

(** X1. [MergeStringMaps] lets the last map win: the value of a key in the
    merge of some maps followed by a map [m] is the value [m] gives it, and
    the value of the merge of the maps before when [m] does not have the key.
    The merge of no map is empty, a key is in the merge exactly when one of
    the maps has it, and the result does not depend on the order in which
    the runtime visits the maps' entries. *)
Theorem X1_MergeStringMaps_last_map_wins (o1 o2 : MapOrder)
    (maps : list (gmap string string)) (m : gmap string string) (k : string) :
  MergeStringMaps (order := o1) (maps ++ [m]) !! k =
    match m !! k with
    | Some v => Some v
    | None => MergeStringMaps (order := o1) maps !! k
    end
  ∧ MergeStringMaps (order := o1) [] = ∅
  ∧ (is_Some (MergeStringMaps (order := o1) maps !! k)
     ↔ ∃ m', m' ∈ maps ∧ is_Some (m' !! k))
  ∧ MergeStringMaps (order := o1) maps = MergeStringMaps (order := o2) maps.
Proof.
  split; [apply merge_snoc_lookup|]. split; [done|]. split; [apply merge_is_Some|].
  unfold MergeStringMaps. induction maps as [|m' maps IH] using rev_ind; [done|].
  by rewrite !merge_app IH /= !copy_into_union.
Qed.

(** X2. [MergeInterfacegMaps] of one map is a copy of that map, and merging
    two lists of maps one after the other is merging the second list over
    the merge of the first: an entry of the first list stays unless a map of
    the second list has its key. *)
Theorem X2_MergeInterfacegMaps_composes `{MapOrder} {A} (l1 l2 : list (gmap string A))
    (m : gmap string A) (k : string) :
  MergeInterfacegMaps [m] = m
  ∧ MergeInterfacegMaps (l1 ++ l2) = MergeInterfacegMaps l2 ∪ MergeInterfacegMaps l1
  ∧ MergeInterfacegMaps (l1 ++ l2) !! k =
      match MergeInterfacegMaps l2 !! k with
      | Some v => Some v
      | None => MergeInterfacegMaps l1 !! k
      end.
Proof.
  unfold MergeInterfacegMaps. split; [|split].
  - simpl. by rewrite copy_into_union right_id_L.
  - apply merge_app.
  - rewrite merge_app lookup_union.
    destruct (foldl copy_into ∅ l2 !! k), (foldl copy_into ∅ l1 !! k); done.
Qed.

End merging_claims.

Section rebuilding.
Context `{Payloads, !Externals, !MapOrder}.

Lemma foldl_insert_lookup (m r : gmap string string) (keys : list string) (k : string) :
  foldl (λ r k, <[k := default "" (m !! k)]> r) r keys !! k =
    if decide (k ∈ keys) then Some (default "" (m !! k)) else r !! k.
Proof.
  revert r. induction keys as [|k' keys IH]; intros r; cbn [foldl].
  - destruct (decide (k ∈ [])) as [Hin|_]; [by apply elem_of_nil in Hin | done].
  - rewrite IH. destruct (decide (k ∈ keys)) as [Hin|Hnin].
    + rewrite decide_True //. by apply elem_of_cons; right.
    + destruct (decide (k = k')) as [->|Hne].
      * rewrite lookup_insert_eq decide_True //. by apply elem_of_cons; left.
      * rewrite lookup_insert_ne // decide_False //.
        intros Hin. apply elem_of_cons in Hin as [?|?]; done.
Qed.

Lemma SortStringMapByKeys_own_keys (m : gmap string string) (keys : list string) :
  (∀ k, k ∈ keys ↔ is_Some (m !! k)) → SortStringMapByKeys m keys = m.
Proof.
  intros Hkeys. apply map_eq. intros k. unfold SortStringMapByKeys.
  rewrite foldl_insert_lookup lookup_empty. case_decide as Hin.
  - apply Hkeys in Hin as [v ->]. done.
  - destruct (m !! k) as [v|] eqn:Hk; [|done]. exfalso. apply Hin, Hkeys. by eexists.
Qed.

(** X3. [SortStringMapByKeys(m, keys)] has exactly the keys of [keys]; a key
    that [m] has keeps its value and a key that [m] does not have gets the
    empty string. Given the keys of [m] itself, in the order the runtime
    lists them or sorted, it gives back [m]. *)
Theorem X3_SortStringMapByKeys_rebuilds_the_map (m : gmap string string)
    (keys : list string) (k : string) :
  SortStringMapByKeys m keys !! k =
    (if decide (k ∈ keys) then Some (default "" (m !! k)) else None)
  ∧ SortStringMapByKeys m (GetStringKeys m) = m
  ∧ SortStringMapByKeys m (sort_Strings (GetStringKeys m)) = m.
Proof.
  split; [|split].
  - unfold SortStringMapByKeys. by rewrite foldl_insert_lookup lookup_empty.
  - apply SortStringMapByKeys_own_keys. intros k'. unfold GetStringKeys.
    by rewrite map_range_keys elem_of_elements elem_of_dom.
  - apply SortStringMapByKeys_own_keys. intros k'. unfold GetStringKeys.
    by rewrite sort_Strings_elem_of map_range_keys elem_of_elements elem_of_dom.
Qed.

End rebuilding.

(** ** Package [common]: searching strings *)

Section searching.

Lemma append_cons (a : ascii) (s t : string) : String a s +:+ t = String a (s +:+ t).
Proof. reflexivity. Qed.

Lemma append_empty (t : string) : "" +:+ t = t.
Proof. reflexivity. Qed.

Lemma prefix_app (p s : string) :
  String.prefix p s = true ↔ ∃ post, s = p +:+ post.
Proof.
  revert s. induction p as [|a p IH]; intros s; simpl.
  - assert (String.prefix "" s = true) as -> by by destruct s.
    split; [|done]. intros _. by exists s.
  - destruct s as [|b s]; simpl.
    + split; [done|]. intros [post Hpost]. by rewrite append_cons in Hpost.
    + destruct (ascii_dec a b) as [->|Hne].
      * rewrite IH. split; intros [post Hpost]; exists post.
        -- by rewrite append_cons Hpost.
        -- rewrite append_cons in Hpost. congruence.
      * split; [done|]. intros [post Hpost]. rewrite append_cons in Hpost. congruence.
Qed.

Lemma strings_Contains_app (s substr : string) :
  strings_Contains s substr = true ↔ ∃ pre post, s = pre +:+ substr +:+ post.
Proof.
  induction s as [|a s IH]; cbn [strings_Contains].
  - rewrite orb_false_r prefix_app. split.
    + intros [post Hpost]. by exists "", post.
    + intros ([|b pre] & post & Hpost); [by exists post|].
      by rewrite append_cons in Hpost.
  - rewrite orb_true_iff prefix_app IH. split.
    + intros [[post Hpost]|(pre & post & ->)].
      * by exists "", post.
      * by exists (String a pre), post.
    + intros ([|b pre] & post & Hpost).
      * left. by exists post.
      * right. exists pre, post. rewrite append_cons in Hpost. congruence.
Qed.

(** X4. [StringInArr(a, arr)] is true exactly when [a] is an element of
    [arr]; strings are compared as they are, byte for byte. *)
Theorem X4_StringInArr_is_membership (a : string) (arr : list string) :
  StringInArr a arr = true ↔ a ∈ arr.
Proof.
  induction arr as [|b arr IH]; simpl.
  - split; [done|]. intros Hin. by apply elem_of_nil in Hin.
  - rewrite elem_of_cons. case_bool_decide as Hb.
    + split; [by left|done].
    + rewrite IH. split; [by right|]. intros [?|?]; [congruence|done].
Qed.

(** X5. [StringContainsAny(s, arr)] is true exactly when some string of
    [arr] occurs in [s], that is when [s] is a prefix, that string and a
    suffix. So an empty string in [arr] makes it true for every [s], and an
    empty [arr] makes it false. *)
Theorem X5_StringContainsAny_finds_a_substring (s : string) (arr arr' : list string) :
  (StringContainsAny s arr = true
   ↔ ∃ v, v ∈ arr ∧ ∃ pre post, s = pre +:+ v +:+ post)
  ∧ StringContainsAny s (arr ++ "" :: arr') = true
  ∧ StringContainsAny s [] = false.
Proof.
  assert (∀ l, StringContainsAny s l = true
               ↔ ∃ v, v ∈ l ∧ ∃ pre post, s = pre +:+ v +:+ post) as Hspec.
  { induction l as [|v l IH]; simpl.
    - split; [done|]. intros (v & Hin & _). by apply elem_of_nil in Hin.
    - destruct (strings_Contains s v) eqn:Hc.
      + split; [|done]. intros _. exists v. split; [by left|].
        by apply strings_Contains_app.
      + rewrite IH. split.
        * intros (v' & Hin & Hsub). exists v'. split; [by right|done].
        * intros (v' & [->|Hin]%elem_of_cons & Hsub); [|by exists v'].
          apply strings_Contains_app in Hsub. congruence. }
  split; [apply Hspec|]. split; [|done].
  apply Hspec. exists "". split.
  - apply elem_of_app. right. by left.
  - by exists "", s.
Qed.

(** X6. [IfDef(v, def)] gives [def] for nil, for the empty string and for the
    integer zero, and [v] itself for every other value, one of another type
    included. Applying it twice with the same default changes nothing. *)
Theorem X6_IfDef_replaces_nil_empty_and_zero {Other} (v def : Value Other) :
  IfDef VNil def = def
  ∧ IfDef (VString "") def = def
  ∧ IfDef (VInt 0) def = def
  ∧ (∀ o, IfDef (VOther o) def = VOther o)
  ∧ (IfDef v def = v ∨ (IfDef v def = def ∧ (v = VNil ∨ v = VString "" ∨ v = VInt 0)))
  ∧ IfDef (IfDef v def) def = IfDef v def.
Proof.
  split; [done|]. split; [done|]. split; [done|]. split; [done|]. split.
  - destruct v as [|s|n|o]; simpl; try case_bool_decide; subst; auto.
  - destruct v as [|s|n|o]; simpl; try case_bool_decide; subst; simpl;
      try (by case_bool_decide);
      destruct def as [|s'|n'|o']; simpl; try case_bool_decide; done.
Qed.

End searching.

(** ** Package [common]: rendering and the list of instances *)

Section rendering.
Context `{Payloads, !Externals, !MapOrder}.

(** X7. [Render] never fails: when the template cannot be made or cannot be
    rendered it logs the error, once and at level error, and returns the
    template text as it was given; when there is no template it returns the
    text and logs nothing; otherwise it returns the rendering, trimmed and
    with the no-value marks removed, and logs nothing. It leaves the file
    system alone. *)
Theorem X7_Render_falls_back_on_the_template_text (def : string)
    (obj : gmap string string) (w : World) :
  let made := NewTextTemplate def in
  let result := Render def obj w in
  fs result.1 = fs w
  ∧ (∀ e, made.2 = Some e → result = (logger_Error (ArgError e) [] w, def))
  ∧ (made = (None, None) → result = (w, def))
  ∧ (∀ tpl, made = (Some tpl, None) →
       let rendered := RenderObject tpl obj in
       (∀ e, rendered.2 = Some e → result = (logger_Error (ArgError e) [] w, def))
       ∧ (rendered.2 = None →
            result = (w, strings_ReplaceAll
                           (strings_TrimSpace (string_of_list_byte rendered.1))
                           "<no value>" ""))).
Proof.
  simpl. split; [apply Render_onlyLogs|]. unfold Render, RenderTemplate.
  destruct (NewTextTemplate def) as [tpl err]. simpl. split; [|split].
  - by intros e ->.
  - by intros [= -> ->].
  - intros tpl' [= -> ->]. destruct (RenderObject tpl' obj) as [b [e|]]; simpl.
    + split; [by intros e' [= ->] | done].
    + split; [done | done].
Qed.

Lemma strings_Split_byte_length (sep : ascii) (s : string) :
  0 < List.length (strings_Split_byte sep s).
Proof.
  induction s as [|a s IH]; simpl; [lia|].
  case_bool_decide; simpl; [lia|].
  destruct (strings_Split_byte sep s); simpl; lia.
Qed.

(** One turn of the loop adds the entry of the part, if it stands for one. *)
Lemma discoveryEntry_entry (m : gmap string string) (index : nat) (v : string) :
  discoveryEntry m index v =
    match entryOfPart index v with
    | Some (k, u) => <[k := u]> m
    | None => m
    end.
Proof.
  unfold discoveryEntry, entryOfPart.
  destruct (strings_Split_byte "=" v) as [|kv0 [|kv1 kv]]; [done..|].
  by destruct (utils_IsEmpty (strings_TrimSpace kv1)).
Qed.

Lemma discovery_loop (arr : list string) (m : gmap string string) (index : nat) :
  let result := (foldl (λ '(m, index) v, (discoveryEntry m index v, S index))
                   (m, index) arr).1 in
  (∀ k u, result !! k = Some u →
          m !! k = Some u
          ∨ ∃ j v, arr !! j = Some v ∧ entryOfPart (index + j) v = Some (k, u))
  ∧ size result ≤ size m + List.length arr.
Proof.
  revert m index. induction arr as [|v arr IH]; intros m index; simpl.
  - split; [by left | lia].
  - destruct (IH (discoveryEntry m index v) (S index)) as [Hin Hsize]. split.
    + intros k u Hk. destruct (Hin k u Hk) as [Hm|(j & v' & Hj & He)].
      * rewrite discoveryEntry_entry in Hm.
        destruct (entryOfPart index v) as [[k' u']|] eqn:He; [|by left].
        destruct (decide (k' = k)) as [->|Hne].
        -- rewrite lookup_insert_eq in Hm. injection Hm as ->.
           right. exists 0, v. by rewrite Nat.add_0_r.
        -- rewrite lookup_insert_ne // in Hm. by left.
      * right. exists (S j), v'. split; [done|]. by rewrite Nat.add_succ_r.
    + etrans; [exact Hsize|]. rewrite discoveryEntry_entry.
      destruct (entryOfPart index v) as [[k' u']|]; [|lia].
      destruct (m !! k') as [u0|] eqn:Hk'.
      * rewrite map_size_insert_Some //. lia.
      * rewrite map_size_insert_None //. lia.
Qed.

(** X8. In the map of [GetPrometheusDiscoveriesByInstances(names)] every
    entry comes from one of the parts of [names] between commas: a part
    [name=url] with a url that is not empty gives the url under the name, or
    under [unknown] followed by the position of the part when the name is
    empty, and a part without an equals sign gives the part, trimmed, under
    [unknown] followed by its position. So a key is [unknown] with a position
    or a name that is not empty with a url that is not empty, there are no
    more entries than parts, and the empty [names] give the one entry of
    [unknown0] with the trimmed empty string. *)
Theorem X8_discovery_instances_come_from_the_parts (names : string) :
  let parts := strings_Split_byte "," names in
  let result := GetPrometheusDiscoveriesByInstances names in
  (∀ k u, result !! k = Some u →
          ∃ j v, parts !! j = Some v ∧ entryOfPart j v = Some (k, u))
  ∧ (∀ k u, result !! k = Some u →
            (∃ j, j < List.length parts ∧ k = Sprintf_s_d "unknown" j)
            ∨ (utils_IsEmpty k = false ∧ utils_IsEmpty u = false))
  ∧ size result ≤ List.length parts
  ∧ GetPrometheusDiscoveriesByInstances "" = {[ "unknown0" := strings_TrimSpace "" ]}.
Proof.
  intros parts result.
  assert (∀ k u, result !! k = Some u →
                 ∃ j v, parts !! j = Some v ∧ entryOfPart j v = Some (k, u)) as Hfrom.
  { intros k u Hk. subst result. unfold GetPrometheusDiscoveriesByInstances in Hk.
    fold parts in Hk. pose proof (strings_Split_byte_length "," names) as Hlen.
    fold parts in Hlen. apply Nat.ltb_lt in Hlen. rewrite Hlen in Hk.
    destruct (discovery_loop parts ∅ 0) as [Hin _].
    destruct (Hin k u Hk) as [Hm|Hj]; [by rewrite lookup_empty in Hm | done]. }
  split; [exact Hfrom|]. split; [|split].
  - intros k u (j & v & Hj & He)%Hfrom. unfold entryOfPart in He.
    apply lookup_lt_Some in Hj.
    destruct (strings_Split_byte "=" v) as [|kv0 [|kv1 kv]]; [done| |].
    + injection He as <- <-. left. by exists j.
    + destruct (utils_IsEmpty (strings_TrimSpace kv1)) eqn:Hurl; [done|].
      destruct (utils_IsEmpty (strings_TrimSpace kv0)) eqn:Hname;
        injection He as <- <-; [left; by exists j | by right].
  - subst result. unfold GetPrometheusDiscoveriesByInstances. fold parts.
    pose proof (strings_Split_byte_length "," names) as Hlen.
    fold parts in Hlen. apply Nat.ltb_lt in Hlen. rewrite Hlen.
    destruct (discovery_loop parts ∅ 0) as [_ Hsize]. by rewrite map_size_empty in Hsize.
  - reflexivity.
Qed.

End rendering.

(** ** Package [telegraf]: the builders and the container *)

Section builders_frame.
Context `{Payloads, !Externals, !MapOrder, !Collaborators}.

Lemma GenerateInputHTTPResponseBytes_eq (tc : Config.t) (opts : InputHTTPResponseOptions.t)
    (urls : gmap string (gmap string string)) :
  GenerateInputHTTPResponseBytes tc opts urls =
    let i := Config.Inputs tc in
    let tc' :=
      Config.mk (Inputs.mk (Inputs.PrometheusHttp i) (Inputs.DNSQuery i)
        (Inputs.HTTPResponse i ++ (httpInput opts urls <$> sortedKeys urls))
        (Inputs.NetResponse i) (Inputs.X509Cert i)) in
    (tc', encode tc').
Proof.
  unfold GenerateInputHTTPResponseBytes, GetLabelsKeys.
  by rewrite foldl_append_HTTPResponse sorted_range_keys.
Qed.

Lemma GenerateInputNETResponseBytes_eq (tc : Config.t) (opts : InputNetResponseOptions.t)
    (addresses : gmap string (gmap string string)) (protocol : string) :
  GenerateInputNETResponseBytes tc opts addresses protocol =
    let i := Config.Inputs tc in
    let tc' :=
      Config.mk (Inputs.mk (Inputs.PrometheusHttp i) (Inputs.DNSQuery i)
        (Inputs.HTTPResponse i)
        (Inputs.NetResponse i ++ (netInput opts addresses protocol <$> sortedKeys addresses))
        (Inputs.X509Cert i)) in
    (tc', encode tc').
Proof.
  unfold GenerateInputNETResponseBytes, GetLabelsKeys.
  by rewrite foldl_append_NetResponse sorted_range_keys.
Qed.

Lemma GenerateInputX509CertBytes_eq (tc : Config.t) (opts : InputX509CertOptions.t)
    (addresses : gmap string (gmap string string)) :
  GenerateInputX509CertBytes tc opts addresses =
    let i := Config.Inputs tc in
    let tc' :=
      Config.mk (Inputs.mk (Inputs.PrometheusHttp i) (Inputs.DNSQuery i)
        (Inputs.HTTPResponse i) (Inputs.NetResponse i)
        (Inputs.X509Cert i ++ (certInput opts addresses <$> sortedKeys addresses))) in
    (tc', encode tc').
Proof.
  unfold GenerateInputX509CertBytes, GetLabelsKeys.
  by rewrite foldl_append_X509Cert sorted_range_keys.
Qed.

(** X9. A builder touches its own list of the container only, and only by
    appending: after any of the five builders the records that were in the
    container are still there, in their places, and the lists of the other
    four kinds are as they were. *)
Theorem X9_builders_only_append_to_their_own_list (tc : Config.t) :
  let i := Config.Inputs tc in
  (∀ opts domains,
     let i' := Config.Inputs (GenerateInputDNSQueryBytes tc opts domains).1 in
     Inputs.DNSQuery i `prefix_of` Inputs.DNSQuery i'
     ∧ Inputs.PrometheusHttp i' = Inputs.PrometheusHttp i
     ∧ Inputs.HTTPResponse i' = Inputs.HTTPResponse i
     ∧ Inputs.NetResponse i' = Inputs.NetResponse i
     ∧ Inputs.X509Cert i' = Inputs.X509Cert i)
  ∧ (∀ opts urls,
     let i' := Config.Inputs (GenerateInputHTTPResponseBytes tc opts urls).1 in
     Inputs.HTTPResponse i `prefix_of` Inputs.HTTPResponse i'
     ∧ Inputs.PrometheusHttp i' = Inputs.PrometheusHttp i
     ∧ Inputs.DNSQuery i' = Inputs.DNSQuery i
     ∧ Inputs.NetResponse i' = Inputs.NetResponse i
     ∧ Inputs.X509Cert i' = Inputs.X509Cert i)
  ∧ (∀ opts addresses protocol,
     let i' := Config.Inputs (GenerateInputNETResponseBytes tc opts addresses protocol).1 in
     Inputs.NetResponse i `prefix_of` Inputs.NetResponse i'
     ∧ Inputs.PrometheusHttp i' = Inputs.PrometheusHttp i
     ∧ Inputs.DNSQuery i' = Inputs.DNSQuery i
     ∧ Inputs.HTTPResponse i' = Inputs.HTTPResponse i
     ∧ Inputs.X509Cert i' = Inputs.X509Cert i)
  ∧ (∀ opts addresses,
     let i' := Config.Inputs (GenerateInputX509CertBytes tc opts addresses).1 in
     Inputs.X509Cert i `prefix_of` Inputs.X509Cert i'
     ∧ Inputs.PrometheusHttp i' = Inputs.PrometheusHttp i
     ∧ Inputs.DNSQuery i' = Inputs.DNSQuery i
     ∧ Inputs.HTTPResponse i' = Inputs.HTTPResponse i
     ∧ Inputs.NetResponse i' = Inputs.NetResponse i)
  ∧ (∀ s labelsTpl opts name persistMetrics,
     let i' := Config.Inputs
                 (GenerateInputPrometheusHttpBytes tc s labelsTpl opts name persistMetrics).1 in
     Inputs.PrometheusHttp i `prefix_of` Inputs.PrometheusHttp i'
     ∧ List.length (Inputs.PrometheusHttp i') ≤ S (List.length (Inputs.PrometheusHttp i))
     ∧ Inputs.DNSQuery i' = Inputs.DNSQuery i
     ∧ Inputs.HTTPResponse i' = Inputs.HTTPResponse i
     ∧ Inputs.NetResponse i' = Inputs.NetResponse i
     ∧ Inputs.X509Cert i' = Inputs.X509Cert i).
Proof.
  intros i. subst i. split; [|split; [|split; [|split]]].
  - intros. subst i'. rewrite GenerateInputDNSQueryBytes_eq. simpl.
    split; [by eexists | done].
  - intros. subst i'. rewrite GenerateInputHTTPResponseBytes_eq. simpl.
    split; [by eexists | done].
  - intros. subst i'. rewrite GenerateInputNETResponseBytes_eq. simpl.
    split; [by eexists | done].
  - intros. subst i'. rewrite GenerateInputX509CertBytes_eq. simpl.
    split; [by eexists | done].
  - intros. subst i'. unfold GenerateInputPrometheusHttpBytes.
    destruct (List.length _ =? 0); simpl.
    + split; [done|]. split; [lia | done].
    + split; [by eexists|]. split; [|done]. rewrite length_app. simpl. lia.
Qed.

End builders_frame.

Section label_builders_records.
Context `{Payloads, !Externals, !Collaborators}.

(** The records of a builder over a label map, against the sorted keys. *)
Lemma records_of_sorted_keys {A R} (m : gmap string A) (f : string → R)
    (P : string → A → R → Prop) :
  (∀ k a, m !! k = Some a → P k a (f k)) →
  Forall2 (λ k r, ∃ a, m !! k = Some a ∧ P k a r) (sortedKeys m) (f <$> sortedKeys m).
Proof.
  intros HP. apply Forall2_fmap_r, Forall_Forall2_diag, Forall_forall.
  intros k [a Ha]%sortedKeys_elem_of. eauto.
Qed.

(** X10. The HTTP-response builder gives the same result whatever the order
    in which the runtime visits the map. It appends one record per url of
    the map, in the lexicographic order of the urls; the record of a url has
    that url as its only entry of [URLs], the labels of the url as [Tags],
    and the interval, timeout, method, redirect flag, string match and
    status code of the options. *)
Theorem X10_http_records_follow_sorted_urls (o1 o2 : MapOrder) (tc : Config.t)
    (opts : InputHTTPResponseOptions.t) (urls : gmap string (gmap string string)) :
  let result := GenerateInputHTTPResponseBytes (order := o1) tc opts urls in
  let old := Inputs.HTTPResponse (Config.Inputs tc) in
  let new := emitted old (Inputs.HTTPResponse (Config.Inputs result.1)) in
  result = GenerateInputHTTPResponseBytes (order := o2) tc opts urls
  ∧ Inputs.HTTPResponse (Config.Inputs result.1) = old ++ new
  ∧ List.length new = size urls
  ∧ StronglySorted string_le (sortedKeys urls)
  ∧ Forall2 (λ k r, ∃ labels, urls !! k = Some labels
               ∧ InputHTTPResponse.URLs r = [k]
               ∧ InputHTTPResponse.Tags r = labels
               ∧ InputHTTPResponse.Interval r = InputHTTPResponseOptions.Interval opts
               ∧ InputHTTPResponse.Timeout r = InputHTTPResponseOptions.Timeout opts
               ∧ InputHTTPResponse.Method r = InputHTTPResponseOptions.Method opts
               ∧ InputHTTPResponse.FollowRedirects r =
                   InputHTTPResponseOptions.FollowRedirects opts
               ∧ InputHTTPResponse.StringMatch r = InputHTTPResponseOptions.StringMatch opts
               ∧ InputHTTPResponse.StatusCode r = InputHTTPResponseOptions.StatusCode opts)
      (sortedKeys urls) new.
Proof.
  intros result old new. subst result old new.
  rewrite !GenerateInputHTTPResponseBytes_eq. simpl. rewrite emitted_app.
  split; [done|]. split; [done|].
  split; [by rewrite length_fmap sortedKeys_length|].
  split; [apply sort_Strings_sorted|].
  apply (records_of_sorted_keys urls (httpInput opts urls)
           (λ k labels r, InputHTTPResponse.URLs r = [k] ∧ _)).
  intros k labels Hk. simpl. by rewrite Hk.
Qed.

(** X11. The net-response builder gives the same result whatever the order
    in which the runtime visits the map. It appends one record per address
    of the map, in the lexicographic order of the addresses; the record of
    an address has that address, the protocol given to the builder, the
    labels of the address as [Tags], and the interval, timeouts, send and
    expect strings of the options. *)
Theorem X11_net_records_follow_sorted_addresses (o1 o2 : MapOrder) (tc : Config.t)
    (opts : InputNetResponseOptions.t) (addresses : gmap string (gmap string string))
    (protocol : string) :
  let result := GenerateInputNETResponseBytes (order := o1) tc opts addresses protocol in
  let old := Inputs.NetResponse (Config.Inputs tc) in
  let new := emitted old (Inputs.NetResponse (Config.Inputs result.1)) in
  result = GenerateInputNETResponseBytes (order := o2) tc opts addresses protocol
  ∧ Inputs.NetResponse (Config.Inputs result.1) = old ++ new
  ∧ List.length new = size addresses
  ∧ InputNetResponse.Address <$> new = sortedKeys addresses
  ∧ StronglySorted string_le (InputNetResponse.Address <$> new)
  ∧ Forall2 (λ k r, ∃ labels, addresses !! k = Some labels
               ∧ InputNetResponse.Address r = k
               ∧ InputNetResponse.Protocol r = protocol
               ∧ InputNetResponse.Tags r = labels
               ∧ InputNetResponse.Interval r = InputNetResponseOptions.Interval opts
               ∧ InputNetResponse.Timeout r = InputNetResponseOptions.Timeout opts
               ∧ InputNetResponse.ReadTimeout r = InputNetResponseOptions.ReadTimeout opts
               ∧ InputNetResponse.Send r = InputNetResponseOptions.Send opts
               ∧ InputNetResponse.Expect r = InputNetResponseOptions.Expect opts)
      (sortedKeys addresses) new.
Proof.
  intros result old new. subst result old new.
  rewrite !GenerateInputNETResponseBytes_eq. simpl. rewrite emitted_app.
  assert (InputNetResponse.Address <$> (netInput opts addresses protocol <$> sortedKeys addresses)
          = sortedKeys addresses) as Haddr.
  { rewrite -list_fmap_compose. apply list_fmap_id. }
  split; [done|]. split; [done|].
  split; [by rewrite length_fmap sortedKeys_length|].
  split; [done|]. split; [rewrite Haddr; apply sort_Strings_sorted|].
  apply (records_of_sorted_keys addresses (netInput opts addresses protocol)
           (λ k labels r, InputNetResponse.Address r = k ∧ _)).
  intros k labels Hk. simpl. by rewrite Hk.
Qed.

(** X12. The certificate builder gives the same result whatever the order
    in which the runtime visits the map. It appends one record per address
    of the map, in the lexicographic order of the addresses; the record of
    an address has that address as its only source, the labels of the
    address as [Tags], and the interval, timeout, server names, TLS files
    and proxy settings of the options. *)
Theorem X12_cert_records_follow_sorted_addresses (o1 o2 : MapOrder) (tc : Config.t)
    (opts : InputX509CertOptions.t) (addresses : gmap string (gmap string string)) :
  let result := GenerateInputX509CertBytes (order := o1) tc opts addresses in
  let old := Inputs.X509Cert (Config.Inputs tc) in
  let new := emitted old (Inputs.X509Cert (Config.Inputs result.1)) in
  result = GenerateInputX509CertBytes (order := o2) tc opts addresses
  ∧ Inputs.X509Cert (Config.Inputs result.1) = old ++ new
  ∧ List.length new = size addresses
  ∧ StronglySorted string_le (sortedKeys addresses)
  ∧ Forall2 (λ k r, ∃ labels, addresses !! k = Some labels
               ∧ InputX509Cert.Sources r = [k]
               ∧ InputX509Cert.Tags r = labels
               ∧ InputX509Cert.Interval r = InputX509CertOptions.Interval opts
               ∧ InputX509Cert.Timeout r = InputX509CertOptions.Timeout opts
               ∧ InputX509Cert.ServerName r = InputX509CertOptions.ServerName opts
               ∧ InputX509Cert.ExcludeRootCerts r = InputX509CertOptions.ExcludeRootCerts opts
               ∧ InputX509Cert.TLSCA r = InputX509CertOptions.TLSCA opts
               ∧ InputX509Cert.TLSCert r = InputX509CertOptions.TLSCert opts
               ∧ InputX509Cert.TLSKey r = InputX509CertOptions.TLSKey opts
               ∧ InputX509Cert.TLSServerName r = InputX509CertOptions.TLSServerName opts
               ∧ InputX509Cert.UseProxy r = InputX509CertOptions.UseProxy opts
               ∧ InputX509Cert.ProxyURL r = InputX509CertOptions.ProxyURL opts)
      (sortedKeys addresses) new.
Proof.
  intros result old new. subst result old new.
  rewrite !GenerateInputX509CertBytes_eq. simpl. rewrite emitted_app.
  split; [done|]. split; [done|].
  split; [by rewrite length_fmap sortedKeys_length|].
  split; [apply sort_Strings_sorted|].
  apply (records_of_sorted_keys addresses (certInput opts addresses)
           (λ k labels r, InputX509Cert.Sources r = [k] ∧ _)).
  intros k labels Hk. simpl. by rewrite Hk.
Qed.

End label_builders_records.

(** ** Package [telegraf]: the record of the metrics builder *)

Section metrics_record.
Context `{Payloads, !Externals, !Collaborators}.

Lemma foldl_pointwise {A B} (f g : A → B → A) (l : list B) (a : A) :
  (∀ a b, f a b = g a b) → foldl f a l = foldl g a l.
Proof.
  intros Hfg. revert a. induction l as [|b l IH]; intros a; simpl; [done|].
  by rewrite Hfg IH.
Qed.

(** A loop over keys that looks each key up is a loop over the values found. *)
Lemma foldl_lookup_omap {A B} (m : gmap string B) (f : A → B → A) (keys : list string)
    (a : A) :
  foldl (λ a k, match m !! k with Some b => f a b | None => a end) a keys =
    foldl f a (omap (λ k, m !! k) keys).
Proof.
  revert a. induction keys as [|k keys IH]; intros a; simpl; [done|].
  destruct (m !! k); simpl; apply IH.
Qed.

(** The loop over the files of an object. *)
Lemma files_loop (files : gmap string File.t) (keys : list string)
    (input : InputPrometheusHttp.t) (fl : gmap string FileObjT) :
  foldl (λ '(input, fl) k,
           match files !! k with
           | Some v =>
               let f := InputPrometheusHttpFile.mk k (File.Path v) (File.Type_ v) in
               (InputPrometheusHttp.with_File input (InputPrometheusHttp.File input ++ [f]),
                <[k := File.Obj v]> fl)
           | None => (input, fl)
           end)
        (input, fl) keys =
    (InputPrometheusHttp.with_File input
       (InputPrometheusHttp.File input
        ++ omap (λ k, (λ v, InputPrometheusHttpFile.mk k (File.Path v) (File.Type_ v))
                        <$> files !! k) keys),
     foldl (λ fl k, match files !! k with
                    | Some v => <[k := File.Obj v]> fl
                    | None => fl
                    end) fl keys).
Proof.
  revert input fl. induction keys as [|k keys IH]; intros input fl; simpl.
  - rewrite app_nil_r. by destruct input.
  - destruct (files !! k) as [v|]; simpl; [|apply IH].
    rewrite IH. simpl. by rewrite -app_assoc.
Qed.

Lemma payloads_loop (files : gmap string File.t) (keys : list string)
    (fl : gmap string FileObjT) (k : string) :
  foldl (λ fl k, match files !! k with
                 | Some v => <[k := File.Obj v]> fl
                 | None => fl
                 end) fl keys !! k =
    if decide (k ∈ keys ∧ is_Some (files !! k)) then File.Obj <$> files !! k else fl !! k.
Proof.
  revert fl. induction keys as [|k' keys IH]; intros fl; cbn [foldl].
  - destruct (decide _) as [[Hin _]|_]; [by apply elem_of_nil in Hin | done].
  - rewrite IH. destruct (decide (k ∈ keys ∧ _)) as [[Hin Hs]|Hn].
    + destruct (decide (k ∈ k' :: keys ∧ _)) as [_|Hn']; [done|].
      exfalso. apply Hn'. split; [by right | done].
    + destruct (decide (k ∈ k' :: keys ∧ _)) as [[Hin Hs]|Hn'].
      * apply elem_of_cons in Hin as [->|Hin]; [|exfalso; by apply Hn].
        destruct Hs as [v Hv]. by rewrite Hv lookup_insert_eq.
      * destruct (files !! k') as [v|] eqn:Hk'; [|done].
        rewrite lookup_insert_ne //. intros ->. apply Hn'.
        split; [by left | by rewrite Hk'].
Qed.

Lemma payloads_of_files (files : gmap string File.t) :
  foldl (λ fl k, match files !! k with
                 | Some v => <[k := File.Obj v]> fl
                 | None => fl
                 end) ∅ (sortedKeys files) = File.Obj <$> files.
Proof.
  apply map_eq. intros k. rewrite payloads_loop lookup_fmap lookup_empty.
  case_decide as Hk; [done|]. destruct (files !! k) as [v|] eqn:Hv; [|done].
  exfalso. apply Hk. split; [|done]. apply sortedKeys_elem_of. by rewrite Hv.
Qed.

(** The build steps do not depend on the runtime's order either. *)
Lemma buildConfig_order (o1 o2 : MapOrder) (s : Object.t) (labelsTpl : string)
    (opts : InputPrometheusHttpOptions.t) (fl : gmap string FileObjT)
    (persistMetrics : bool) (input : InputPrometheusHttp.t) (c : BaseConfig.t) :
  buildConfig (order := o1) s labelsTpl opts fl persistMetrics input c =
    buildConfig (order := o2) s labelsTpl opts fl persistMetrics input c.
Proof. unfold buildConfig, configVars. by rewrite !MergeStringMaps_two. Qed.

(** The record when the loops are done, with the loops over the maps
    resolved. *)
Lemma buildInput_eq (o : MapOrder) (s : Object.t) (labelsTpl : string)
    (opts : InputPrometheusHttpOptions.t) (name : string) (persistMetrics : bool) :
  buildInput (order := o) s labelsTpl opts name persistMetrics =
    foldl (buildConfig (order := o) s labelsTpl opts (File.Obj <$> Object.Files s)
             persistMetrics)
      (InputPrometheusHttp.mk name
         (InputPrometheusHttpOptions.URL opts) (InputPrometheusHttpOptions.User opts)
         (InputPrometheusHttpOptions.Password opts) (InputPrometheusHttpOptions.Version opts)
         (InputPrometheusHttpOptions.Params opts) (InputPrometheusHttpOptions.Interval opts)
         (InputPrometheusHttpOptions.Timeout opts) (InputPrometheusHttpOptions.Duration opts)
         (InputPrometheusHttpOptions.Prefix opts) (fileEntries (Object.Files s)) [] ∅ [] true)
      (inKeyOrder (Object.Configs s)).
Proof.
  unfold buildInput, GetFileKeys, GetBaseConfigKeys.
  rewrite !sorted_range_keys files_loop payloads_of_files. simpl.
  by rewrite foldl_lookup_omap.
Qed.

End metrics_record.

Section metrics_record_claims.
Context `{Payloads, !Externals, !Collaborators}.

Lemma omap_of_keys {A R} (m : gmap string A) (h : string → option R)
    (g : string → A → R) (keys : list string) :
  (∀ k, k ∈ keys → ∃ a, m !! k = Some a ∧ h k = Some (g k a)) →
  Forall2 (λ k r, ∃ a, m !! k = Some a ∧ r = g k a) keys (omap h keys).
Proof.
  induction keys as [|k keys IH]; intros Hkeys; simpl; [constructor|].
  destruct (Hkeys k) as (a & Ha & Hh); [by left|]. rewrite Hh.
  constructor; [by exists a|]. apply IH. intros k' Hk'. apply Hkeys. by right.
Qed.

Lemma fileEntries_of_sorted_names (files : gmap string File.t) :
  Forall2 (λ k e, ∃ v, files !! k = Some v
                       ∧ e = InputPrometheusHttpFile.mk k (File.Path v) (File.Type_ v))
    (sortedKeys files) (fileEntries files).
Proof.
  apply (omap_of_keys files _ (λ k v, InputPrometheusHttpFile.mk k (File.Path v) (File.Type_ v))).
  intros k [v Hv]%sortedKeys_elem_of. exists v. by rewrite Hv.
Qed.

Lemma inKeyOrder_of_sorted_names {A} (m : gmap string A) :
  Forall2 (λ k a, m !! k = Some a) (sortedKeys m) (inKeyOrder m).
Proof.
  eapply Forall2_impl.
  - apply (omap_of_keys m (λ k, m !! k) (λ _ a, a)).
    intros k [a Ha]%sortedKeys_elem_of. by exists a.
  - intros k a (a' & Ha' & ->). done.
Qed.

(** X13. In the metrics builder the build steps run over the BaseConfigs of
    the object in the lexicographic order of their names, one run per
    BaseConfig, each with the same map of file payloads, which has the
    payload of every file of the object under the name of the file. They
    start from a record that has the name given to the builder, the
    connection and timing options, no metric, no tag, and one [File] entry
    per file of the object, in the order of the names, with the path and the
    type of the file. *)
Theorem X13_metrics_record_is_built_in_name_order (o : MapOrder) (s : Object.t)
    (labelsTpl : string) (opts : InputPrometheusHttpOptions.t) (name : string)
    (persistMetrics : bool) :
  let files := Object.Files s in
  let configs := Object.Configs s in
  buildInput (order := o) s labelsTpl opts name persistMetrics =
    foldl (buildConfig (order := o) s labelsTpl opts (File.Obj <$> files) persistMetrics)
      (InputPrometheusHttp.mk name
         (InputPrometheusHttpOptions.URL opts) (InputPrometheusHttpOptions.User opts)
         (InputPrometheusHttpOptions.Password opts) (InputPrometheusHttpOptions.Version opts)
         (InputPrometheusHttpOptions.Params opts) (InputPrometheusHttpOptions.Interval opts)
         (InputPrometheusHttpOptions.Timeout opts) (InputPrometheusHttpOptions.Duration opts)
         (InputPrometheusHttpOptions.Prefix opts) (fileEntries files) [] ∅ [] true)
      (inKeyOrder configs)
  ∧ Forall2 (λ k c, configs !! k = Some c) (sortedKeys configs) (inKeyOrder configs)
  ∧ List.length (inKeyOrder configs) = size configs
  ∧ Forall2 (λ k e, ∃ v, files !! k = Some v
                         ∧ e = InputPrometheusHttpFile.mk k (File.Path v) (File.Type_ v))
      (sortedKeys files) (fileEntries files)
  ∧ List.length (fileEntries files) = size files
  ∧ StronglySorted string_le (InputPrometheusHttpFile.Name <$> fileEntries files).
Proof.
  intros files configs. split; [apply buildInput_eq|].
  pose proof (fileEntries_of_sorted_names files) as Hf.
  pose proof (inKeyOrder_of_sorted_names configs) as Hc.
  split; [done|]. split.
  { by rewrite -(Forall2_length _ _ _ Hc) sortedKeys_length. }
  split; [done|]. split.
  { by rewrite -(Forall2_length _ _ _ Hf) sortedKeys_length. }
  assert (InputPrometheusHttpFile.Name <$> fileEntries files = sortedKeys files) as ->.
  { clear Hc. induction Hf as [|k e ks es (v & _ & ->) _ IH]; [done|].
    by rewrite fmap_cons IH. }
  apply sort_Strings_sorted.
Qed.

(** X14. What the metrics builder does itself does not depend on the order
    in which the runtime visits a map: the names of the files and of the
    BaseConfigs are visited in sorted order, which is the same list whatever
    that order, the map of variables handed to the build steps for a
    BaseConfig is the same, and so is the record the build steps start
    from. The build steps and the encoder are code that is not at hand; they
    are given maps, over which they could range. On the assumption that, in
    two runs, they return the same results for the same arguments, the
    builder returns the same container, bytes and error in both, whatever
    the orders of the two runs. *)
Theorem X14_metrics_builder_ignores_map_order (o1 o2 : MapOrder)
    (steps1 steps2 : Collaborators) (tc : Config.t)
    (s : Object.t) (labelsTpl : string) (opts : InputPrometheusHttpOptions.t)
    (name : string) (persistMetrics : bool) :
  (sort_Strings (GetFileKeys (order := o1) (Object.Files s)) =
     sort_Strings (GetFileKeys (order := o2) (Object.Files s))
   ∧ sort_Strings (GetBaseConfigKeys (order := o1) (Object.Configs s)) =
       sort_Strings (GetBaseConfigKeys (order := o2) (Object.Configs s))
   ∧ (∀ c, configVars (order := o1) s c = configVars (order := o2) s c)
   ∧ (∀ c, configVars (order := o1) s c = Object.Vars s ∪ BaseConfig.Vars c))
  ∧ ((∀ input s' q tpl o labels vars fl p,
        buildQualities (Collaborators := steps1) input s' q tpl o labels vars fl p =
        buildQualities (Collaborators := steps2) input s' q tpl o labels vars fl p) →
     (∀ input s' a tpl o labels vars fl p,
        buildAvailability (Collaborators := steps1) input s' a tpl o labels vars fl p =
        buildAvailability (Collaborators := steps2) input s' a tpl o labels vars fl p) →
     (∀ input s' m tpl o labels vars fl p,
        buildMetrics (Collaborators := steps1) input s' m tpl o labels vars fl p =
        buildMetrics (Collaborators := steps2) input s' m tpl o labels vars fl p) →
     (∀ tc', toml_Encode (Collaborators := steps1) tc' =
             toml_Encode (Collaborators := steps2) tc') →
     GenerateInputPrometheusHttpBytes (order := o1) (collab := steps1)
       tc s labelsTpl opts name persistMetrics =
     GenerateInputPrometheusHttpBytes (order := o2) (collab := steps2)
       tc s labelsTpl opts name persistMetrics).
Proof.
  split.
  - unfold GetFileKeys, GetBaseConfigKeys. rewrite !sorted_range_keys.
    split; [done|]. split; [done|].
    unfold configVars. split; intros c; by rewrite !MergeStringMaps_two.
  - intros Hq Ha Hm He.
    assert (buildInput (order := o1) (collab := steps1) s labelsTpl opts name persistMetrics =
            buildInput (order := o2) (collab := steps2) s labelsTpl opts name persistMetrics)
      as Hb.
    { rewrite !buildInput_eq. apply foldl_pointwise. intros input c.
      unfold buildConfig, configVars. by rewrite !MergeStringMaps_two Hq Ha Hm. }
    unfold GenerateInputPrometheusHttpBytes, encode. by rewrite Hb He.
Qed.

End metrics_record_claims.

(** ** Package [telegraf]: the servers of the DNS records *)

Section dns_servers.
Context `{Payloads, !Externals, !MapOrder, !Collaborators}.

Lemma servers_loop (parts acc : list string) :
  (∀ l s, utils_Contains l s = true ↔ s ∈ l) →
  NoDup acc →
  let servers :=
    foldl (λ servers s,
             let s := strings_TrimSpace s in
             if negb (utils_Contains servers s) then servers ++ [s] else servers)
          acc parts in
  NoDup servers ∧ ∀ x, x ∈ servers ↔ x ∈ acc ∨ x ∈ strings_TrimSpace <$> parts.
Proof.
  intros Hc. revert acc. induction parts as [|p parts IH]; intros acc Hnd; simpl.
  - split; [done|]. intros x. rewrite elem_of_nil. tauto.
  - destruct (utils_Contains acc (strings_TrimSpace p)) eqn:Hin; simpl.
    + apply Hc in Hin. destruct (IH acc Hnd) as [Hnd' Hel]. split; [done|].
      intros x. rewrite Hel elem_of_cons. split; [tauto|].
      intros [?|[->|?]]; tauto.
    + assert (strings_TrimSpace p ∉ acc) as Hnin.
      { intros Hin'%Hc. congruence. }
      destruct (IH (acc ++ [strings_TrimSpace p])) as [Hnd' Hel].
      { apply NoDup_app. split; [done|]. split; [|apply NoDup_singleton].
        intros x Hx Heq%list_elem_of_singleton. by subst. }
      split; [done|]. intros x.
      rewrite Hel elem_of_app list_elem_of_singleton elem_of_cons. tauto.
Qed.

(** X15. When [utils.Contains] is membership in the slice, the servers of
    the DNS records are the trimmed parts of the servers option between
    commas, each once, in lexicographic order; and every record that a call
    of the DNS builder appends has that same list of servers. *)
Theorem X15_dns_servers_are_trimmed_unique_and_sorted (tc : Config.t)
    (opts : InputDNSQueryOptions.t) (domains : gmap string (gmap string string)) :
  (∀ l s, utils_Contains l s = true ↔ s ∈ l) →
  let servers := dnsServers opts in
  StronglySorted string_le servers
  ∧ NoDup servers
  ∧ (∀ x, x ∈ servers ↔
          ∃ part, part ∈ strings_Split (InputDNSQueryOptions.Servers opts) ","
                  ∧ x = strings_TrimSpace part)
  ∧ Forall (λ r, InputDNSQuery.Servers r = servers)
      (emitted (Inputs.DNSQuery (Config.Inputs tc))
         (Inputs.DNSQuery (Config.Inputs (GenerateInputDNSQueryBytes tc opts domains).1))).
Proof.
  intros Hc servers. subst servers. unfold dnsServers.
  destruct (servers_loop (strings_Split (InputDNSQueryOptions.Servers opts) ",") [] Hc)
    as [Hnd Hel]; [apply NoDup_nil_2|].
  split; [apply sort_Strings_sorted|]. split; [by apply sort_Strings_NoDup|]. split.
  - intros x. rewrite sort_Strings_elem_of Hel elem_of_nil list_elem_of_fmap.
    split.
    + intros [[]|(part & -> & Hpart)]. by exists part.
    + intros (part & Hpart & ->). right. by exists part.
  - rewrite DNSQuery_after emitted_app. by apply Forall_fmap, Forall_forall.
Qed.

End dns_servers.

(** ** Package [telegraf]: what the gate reports *)

Section gate_reports.
Context `{Payloads, !Externals}.

(** The events of a call of the gate: one line at level debug, preceded by
    the call of the write step unless the bytes are empty. *)
Lemma gate_events (name template conf : string) (checksum : bool)
    (bs : option (list byte)) (w : World) :
  let w' := CreateWithTemplateIfCheckSumIsDifferent name template conf checksum bs w in
  ∃ f args,
    f ∈ ["%s: No query config"; "%s: Cannot create file %s error: %s";
         "%s: File %s exists, skipped"; "%s: File %s created or replaced"]
    ∧ ((trace w' = trace w ++ [LogDebug (ArgString f) args] ∧ fs w' = fs w)
       ∨ ∃ merged, trace w' = trace w ++ [CallFileWriteWithCheckSum conf merged checksum;
                                          LogDebug (ArgString f) args]).
Proof.
  simpl. unfold CreateWithTemplateIfCheckSumIsDifferent.
  destruct (_ || _).
  { do 2 eexists. split; [|left; done]. set_solver. }
  unfold call_FileWriteWithCheckSum.
  destruct (FileWriteWithCheckSum _ _ _ _) as [fs' [ex [e|]]]; [|destruct ex];
    simpl; do 2 eexists; (split; [|right; eexists; by rewrite -app_assoc]); set_solver.
Qed.

End gate_reports.

Section observations.
Context `{Payloads}.

Lemma fileOperations_app (evs1 evs2 : list Event) :
  fileOperations (evs1 ++ evs2) = fileOperations evs1 ++ fileOperations evs2.
Proof. apply omap_app. Qed.

Lemma errorLines_app (evs1 evs2 : list Event) :
  errorLines (evs1 ++ evs2) = errorLines evs1 ++ errorLines evs2.
Proof. apply List.filter_app. Qed.

Lemma debugLines_app (fmt : string) (evs1 evs2 : list Event) :
  debugLines fmt (evs1 ++ evs2) = debugLines fmt evs1 ++ debugLines fmt evs2.
Proof. apply List.filter_app. Qed.

End observations.

Section gate_reports_claims.
Context `{Payloads, !Externals}.

(** X16. A call of the gate logs one line, at level debug, and never a line
    at level error; it calls the write step at most once, for the path and
    with the checksum flag it was given. With bytes that are not empty, the
    file system afterwards is the one the write step returned, and the line
    says what the step returned: that the file cannot be created, with the
    error, when it failed; that the file exists and was skipped when it
    reported the file as existing; that the file was created or replaced
    otherwise. *)
Theorem X16_gate_reports_the_outcome_at_debug_level (name template conf : string)
    (checksum : bool) (bs : option (list byte)) (w : World) :
  let w' := CreateWithTemplateIfCheckSumIsDifferent name template conf checksum bs w in
  let evs := emitted (trace w) (trace w') in
  trace w' = trace w ++ evs
  ∧ errorLines evs = []
  ∧ (fileOperations evs = [] ∨ ∃ merged, fileOperations evs = [(conf, merged, checksum)])
  ∧ ∀ B, bs = Some B → B ≠ [] →
      let merged :=
        if utils_IsEmpty template then B
        else B ++ [x0a] ++ list_byte_of_string template in
      let r := FileWriteWithCheckSum (fs w) conf merged checksum in
      fs w' = r.1
      ∧ evs = [CallFileWriteWithCheckSum conf merged checksum;
               match r.2 with
               | (_, Some e) =>
                   LogDebug (ArgString "%s: Cannot create file %s error: %s")
                     [ArgString name; ArgString conf; ArgError e]
               | (true, None) =>
                   LogDebug (ArgString "%s: File %s exists, skipped")
                     [ArgString name; ArgString conf]
               | (false, None) =>
                   LogDebug (ArgString "%s: File %s created or replaced")
                     [ArgString name; ArgString conf]
               end].
Proof.
  intros w' evs. subst evs.
  destruct (gate_events name template conf checksum bs w)
    as (f & args & Hf & [[Ht Hfs]|[merged Ht]]); fold w' in Ht; rewrite Ht emitted_app.
  - split; [done|]. split; [reflexivity|]. split; [by left|].
    intros B -> HB. exfalso. unfold w' in *.
    unfold CreateWithTemplateIfCheckSumIsDifferent in Ht.
    destruct B as [|b B]; [done|]. simpl in Ht. unfold call_FileWriteWithCheckSum in Ht.
    destruct (FileWriteWithCheckSum _ _ _ _) as [fs' [ex [e|]]]; [|destruct ex];
      simpl in Ht; rewrite -app_assoc in Ht; apply app_inv_head in Ht; discriminate.
  - split; [done|]. split; [reflexivity|]. split; [right; by exists merged|].
    intros B -> HB merged' r. unfold w', r, merged' in *. clear w' r merged'.
    unfold CreateWithTemplateIfCheckSumIsDifferent in *.
    destruct B as [|b B]; [done|]. simpl in *. unfold call_FileWriteWithCheckSum in *.
    destruct (utils_IsEmpty template); simpl in *;
      destruct (FileWriteWithCheckSum _ _ _ _) as [fs' [ex [e|]]]; try destruct ex;
      simpl in *; rewrite -app_assoc in Ht; apply app_inv_head in Ht;
      injection Ht as <- <- <-; done.
Qed.

End gate_reports_claims.

(** ** Package [sink]: what a dispatch leaves in the trace *)

Section sink_events.
Context `{Payloads, !Externals, !MapOrder, !Collaborators}.

Ltac gate_format Hf :=
  repeat (apply elem_of_cons in Hf as [->|Hf]); [..|by apply elem_of_nil in Hf].

Lemma Render_events (def : string) (obj : gmap string string) (w : World) :
  (Render def obj w).1 = w ∨ ∃ e, (Render def obj w).1 = logger_Error (ArgError e) [] w.
Proof.
  unfold Render. destruct (NewTextTemplate def) as [tpl [e|]]; simpl; [right; by exists e|].
  destruct (RenderTemplate tpl def obj) as [s [e|]]; simpl; [right; by exists e | by left].
Qed.

(** One service: one line that it is processed, at most one call of the
    write step, with the checksum flag of the sink. *)
Lemma processService_events (persistMetrics : bool) (t : Telegraf.t) (source : string)
    (w : World) (k : string) (s1 : Object.t) :
  ∃ evs,
    trace (processService persistMetrics t source w k s1) = trace w ++ evs
    ∧ List.length (debugLines "%s: Processing service: %s for path: %s" evs) = 1
    ∧ List.length (fileOperations evs) ≤ 1
    ∧ Forall (λ op, op.2 = TelegrafOptions.Checksum (Telegraf.options t))
        (fileOperations evs).
Proof.
  unfold processService.
  pose proof (Render_events
                (TelegrafSignalOptions.Template (TelegrafOptions.Signal (Telegraf.options t)))
                (Object.Vars s1) w) as Hr.
  destruct (Render _ _ w) as [w1 path]. simpl in Hr.
  destruct (GenerateInputPrometheusHttpBytes _ _ _ _ _ _) as [tc' [bs [e|]]].
  - destruct Hr as [->|[e' ->]]; simpl; rewrite -?app_assoc; eexists;
      (split; [done|]); simpl; repeat split; try lia; constructor.
  - unfold CreateIfCheckSumIsDifferent.
    match goal with |- context [CreateWithTemplateIfCheckSumIsDifferent ?n ?tp ?c ?ch ?b ?w0] =>
      destruct (gate_events n tp c ch b w0) as (f & args & Hf & [[Ht _]|[merged Ht]])
    end; simpl in Ht; rewrite Ht; clear Ht;
      destruct Hr as [->|[e' ->]]; simpl; rewrite -?app_assoc; eexists;
      (split; [done|]); gate_format Hf; simpl; repeat split; try lia;
      repeat constructor.
Qed.

Lemma services_loop (persistMetrics : bool) (t : Telegraf.t) (source : string)
    (services : list (string * Object.t)) (w : World) :
  ∃ evs,
    trace (foldl (λ w ks, processService persistMetrics t source w ks.1 ks.2) w services)
      = trace w ++ evs
    ∧ List.length (debugLines "%s: Processing service: %s for path: %s" evs)
      = List.length services
    ∧ List.length (fileOperations evs) ≤ List.length services
    ∧ Forall (λ op, op.2 = TelegrafOptions.Checksum (Telegraf.options t))
        (fileOperations evs).
Proof.
  revert w. induction services as [|[k s1] services IH]; intros w; simpl.
  - exists []. rewrite app_nil_r. split; [done|]. simpl.
    split; [done|]. split; [lia | constructor].
  - destruct (IH (processService persistMetrics t source w k s1))
      as (evs2 & Ht2 & Hd2 & Hf2 & Hc2).
    destruct (processService_events persistMetrics t source w k s1)
      as (evs1 & Ht1 & Hd1 & Hf1 & Hc1).
    exists (evs1 ++ evs2). rewrite Ht2 Ht1 app_assoc.
    rewrite debugLines_app fileOperations_app !length_app.
    split; [done|]. split; [lia|]. split; [lia | by apply Forall_app].
Qed.

End sink_events.

Section sink_claims.
Context `{Payloads, !Externals, !MapOrder, !Collaborators}.

Ltac gate_format Hf :=
  repeat (apply elem_of_cons in Hf as [->|Hf]); [..|by apply elem_of_nil in Hf].

(** The fallback of [processSignal] changes the URL, the user and the
    password of the sink and nothing else. *)
Lemma processSignal_sink (persistMetrics : bool) (t : Telegraf.t) (d : Discovery.t)
    (sm : SinkMapT) (opts : SignalOptions.t) (w : World) :
  let t' := (processSignal persistMetrics t d sm (OptionsSignal opts) w).1.1 in
  let old := signalOptions t in
  t' = setSignal t (λ o,
         with_Password
           (if utils_IsEmpty (InputPrometheusHttpOptions.Password old)
            then SignalOptions.Password opts
            else InputPrometheusHttpOptions.Password old)
           (with_User
              (if utils_IsEmpty (InputPrometheusHttpOptions.User old)
               then SignalOptions.User opts else InputPrometheusHttpOptions.User old)
              (with_URL
                 (if utils_IsEmpty (InputPrometheusHttpOptions.URL old)
                  then SignalOptions.URL opts else InputPrometheusHttpOptions.URL old)
                 o))).
Proof.
  destruct t as [[pass [o tpl tags] cert dns http tcp chk]].
  destruct o as [i ur us pw ve pa du ti pr qn qr qe qp qq an mn dt vf].
  unfold processSignal, signalOptions, setSignal. simpl.
  destruct (utils_IsEmpty ur); simpl; destruct (utils_IsEmpty us); simpl;
    destruct (utils_IsEmpty pw); simpl; done.
Qed.

(** X17. When a Signal discovery hands over options that are not Signal
    options, no service is processed: [Process] logs the number of objects,
    then, at level error, that the query failed with the error of no
    options; the sink and the file system are as before and the write step
    is not called. *)
Theorem X17_signal_without_options_is_an_error (persistMetrics : bool) (t : Telegraf.t)
    (d : Discovery.t) (so : SinkObject.t) (w : World) :
  Discovery.Name d = "Signal" →
  SinkObject.Options so = OptionsOther →
  let result := Process persistMetrics t d so w in
  result.1 = t
  ∧ fs result.2 = fs w
  ∧ trace result.2 =
      trace w
      ++ [LogDebug (ArgString "Telegraf has to process %d objects from %s...")
            [ArgInt (len_SinkMap (SinkObject.Map so)); ArgString "Signal"];
          LogError (ArgString "%s: %s query error: %s")
            [ArgString (Discovery.Source d); ArgString "Signal";
             ArgError (errors_New "no options")]].
Proof.
  intros Hname Hopts. unfold Process. rewrite Hname Hopts. simpl.
  split; [done|]. split; [done|]. by rewrite -app_assoc.
Qed.

(** X18. With Signal options [processSignal] fills the URL, the user and
    the password of the sink from the discovery where the sink has none, and
    keeps those the sink has; every other option of the sink is as before.
    It returns no error. *)
Theorem X18_signal_fallback_fills_only_what_is_empty (persistMetrics : bool)
    (t : Telegraf.t) (d : Discovery.t) (sm : SinkMapT) (opts : SignalOptions.t)
    (w : World) :
  let result := processSignal persistMetrics t d sm (OptionsSignal opts) w in
  let old := signalOptions t in
  let new := signalOptions result.1.1 in
  result.2 = None
  ∧ InputPrometheusHttpOptions.URL new =
      (if utils_IsEmpty (InputPrometheusHttpOptions.URL old)
       then SignalOptions.URL opts else InputPrometheusHttpOptions.URL old)
  ∧ InputPrometheusHttpOptions.User new =
      (if utils_IsEmpty (InputPrometheusHttpOptions.User old)
       then SignalOptions.User opts else InputPrometheusHttpOptions.User old)
  ∧ InputPrometheusHttpOptions.Password new =
      (if utils_IsEmpty (InputPrometheusHttpOptions.Password old)
       then SignalOptions.Password opts else InputPrometheusHttpOptions.Password old)
  ∧ with_URL "" (with_User "" (with_Password "" new))
    = with_URL "" (with_User "" (with_Password "" old))
  ∧ setSignal result.1.1 (λ _, old) = t.
Proof.
  intros result old new. split; [done|].
  subst new. unfold result. rewrite processSignal_sink. subst old.
  destruct t as [[pass [o tpl tags] cert dns http tcp chk]].
  destruct o as [i ur us pw ve pa du ti pr qn qr qe qp qq an mn dt vf]. done.
Qed.

(** X19. [processSignal] goes through every service of the discovery, also
    when the builder or the write step fails for some of them: it logs that
    it processes a service once per service, calls the write step at most
    once per service, always with the checksum flag of the sink, and
    returns no error. *)
Theorem X19_every_service_is_processed (persistMetrics : bool) (t : Telegraf.t)
    (d : Discovery.t) (sm : SinkMapT) (opts : SignalOptions.t) (w : World) :
  let result := processSignal persistMetrics t d sm (OptionsSignal opts) w in
  let evs := emitted (trace w) (trace result.1.2) in
  let services := ConvertSyncMapToServices sm in
  result.2 = None
  ∧ trace result.1.2 = trace w ++ evs
  ∧ List.length (debugLines "%s: Processing service: %s for path: %s" evs) = size services
  ∧ List.length (fileOperations evs) ≤ size services
  ∧ Forall (λ op, op.2 = TelegrafOptions.Checksum (Telegraf.options t))
      (fileOperations evs).
Proof.
  intros result evs services. split; [done|].
  pose proof (processSignal_sink persistMetrics t d sm opts w) as Hsink.
  simpl in Hsink. fold result in Hsink.
  assert (∃ t', result = (t', foldl (λ w ks,
                     processService persistMetrics t' (Discovery.Source d) w ks.1 ks.2)
                   w (map_range services), None)
                ∧ TelegrafOptions.Checksum (Telegraf.options t') =
                  TelegrafOptions.Checksum (Telegraf.options t)) as (t' & Hres & Hchk).
  { eexists. split; [reflexivity|]. clear.
    destruct t as [[pass [o tpl tags] cert dns http tcp chk]]. simpl.
    repeat (match goal with |- context [if ?b then _ else _] => destruct b end; simpl); done. }
  destruct (services_loop persistMetrics t' (Discovery.Source d) (map_range services) w)
    as (evs' & Ht & Hd & Hf & Hc).
  subst evs. rewrite Hres. simpl. rewrite Ht emitted_app.
  assert (List.length (map_range services) = size services) as Hlen.
  { rewrite map_range_perm. apply length_map_to_list. }
  rewrite -Hlen. rewrite Hchk in Hc. done.
Qed.

(** X20. For a discovery named Cert, DNS, HTTP or TCP, [Process] leaves the
    sink as it was and calls the write step at most once, for the
    configuration path that the sink has for that name and with the checksum
    flag of the sink; it logs at most one line at level error, and when it
    does the write step was not called. *)
Theorem X20_label_discoveries_write_one_file (persistMetrics : bool) (t : Telegraf.t)
    (d : Discovery.t) (so : SinkObject.t) (w : World) :
  Discovery.Name d ∈ ["Cert"; "DNS"; "HTTP"; "TCP"] →
  let result := Process persistMetrics t d so w in
  let evs := emitted (trace w) (trace result.2) in
  result.1 = t
  ∧ trace result.2 = trace w ++ evs
  ∧ ((fileOperations evs = [] ∧ List.length (errorLines evs) ≤ 1)
     ∨ ∃ merged,
         fileOperations evs =
           [(confOf t (Discovery.Name d), merged,
             TelegrafOptions.Checksum (Telegraf.options t))]
         ∧ errorLines evs = []).
Proof.
  intros Hname. destruct d as [dname source]. simpl in Hname.
  unfold Process, processCert, processDNS, processHTTP, processTCP, confOf.
  gate_format Hname; simpl;
    match goal with |- context [encode ?tc] => destruct (encode tc) as [bs [e|]] end;
    simpl; rewrite -?app_assoc.
  all: try (rewrite emitted_app; split; [done|]; split; [done|]; left;
            split; [reflexivity | simpl; lia]).
  all: match goal with
       |- context [CreateWithTemplateIfCheckSumIsDifferent ?n ?tp ?c ?ch ?b ?w0] =>
         destruct (gate_events n tp c ch b w0) as (f & args & Hf & [[Ht _]|[merged Ht]])
       end; simpl in Ht; rewrite Ht -?app_assoc emitted_app;
       (split; [done|]); (split; [done|]).
  all: try (left; split; [reflexivity | simpl; lia]).
  all: right; exists merged; split; reflexivity.
Qed.

End sink_claims.

(** ** More theorems at concrete inputs *)

Section more_examples.
Import Sample.

(** X14 at a service with the BaseConfigs a and b, for a runtime that
    visits a first and one that visits b first, with the same build steps
    and encoder in both runs. *)
Lemma X14_at_two_configs :
  GetBaseConfigKeys (order := canonical_order) (Object.Configs twoConfigService)
  = ["a"; "b"]
  ∧ GetBaseConfigKeys (order := reversed_order) (Object.Configs twoConfigService)
    = ["b"; "a"]
  ∧ GenerateInputPrometheusHttpBytes (order := canonical_order) (collab := collaborators)
      newConfig twoConfigService "" metricsOptions "svc" true =
    GenerateInputPrometheusHttpBytes (order := reversed_order) (collab := collaborators)
      newConfig twoConfigService "" metricsOptions "svc" true.
Proof.
  split; [vm_compute; reflexivity|]. split; [vm_compute; reflexivity|].
  apply (proj2 (X14_metrics_builder_ignores_map_order canonical_order reversed_order
                  collaborators collaborators newConfig twoConfigService ""
                  metricsOptions "svc" true)); reflexivity.
Defined.

(** X15 at a servers option that names one server twice, with spaces. *)
Lemma X15_at_repeated_servers :
  dnsServers dnsOptionsWithServers = ["1.1.1.1"; "8.8.8.8"]
  ∧ let servers := dnsServers dnsOptionsWithServers in
    StronglySorted string_le servers
    ∧ NoDup servers
    ∧ (∀ x, x ∈ servers ↔
            ∃ part, part ∈ strings_Split
                             (InputDNSQueryOptions.Servers dnsOptionsWithServers) ","
                    ∧ x = strings_TrimSpace part)
    ∧ Forall (λ r, InputDNSQuery.Servers r = servers)
        (emitted (Inputs.DNSQuery (Config.Inputs newConfig))
           (Inputs.DNSQuery (Config.Inputs
              (GenerateInputDNSQueryBytes newConfig dnsOptionsWithServers
                 scenarioDomains).1))).
Proof.
  split; [vm_compute; reflexivity|].
  apply (X15_dns_servers_are_trimmed_unique_and_sorted newConfig dnsOptionsWithServers
           scenarioDomains).
  intros l s. simpl. apply bool_decide_eq_true.
Defined.

(** X17 at a Signal discovery whose options are not Signal options. *)
Lemma X17_at_other_options :
  let d := Discovery.mk "Signal" "prometheus" in
  let so := SinkObject.mk scenarioDomains OptionsOther in
  let result := Process true telegrafSink d so emptyWorld in
  result.1 = telegrafSink
  ∧ fs result.2 = fs emptyWorld
  ∧ trace result.2 =
      trace emptyWorld
      ++ [LogDebug (ArgString "Telegraf has to process %d objects from %s...")
            [ArgInt (len_SinkMap (SinkObject.Map so)); ArgString "Signal"];
          LogError (ArgString "%s: %s query error: %s")
            [ArgString (Discovery.Source d); ArgString "Signal";
             ArgError (errors_New "no options")]].
Proof.
  exact (X17_signal_without_options_is_an_error true telegrafSink
           (Discovery.mk "Signal" "prometheus")
           (@SinkObject.mk payloads scenarioDomains OptionsOther) emptyWorld
           eq_refl eq_refl).
Defined.

(** X20 at a DNS discovery of the scenario: one file, at the path of the
    sink for DNS. *)
Lemma X20_at_dns_scenario :
  let d := Discovery.mk "DNS" "prometheus" in
  let so := SinkObject.mk scenarioDomains OptionsOther in
  let result := Process true telegrafSink d so emptyWorld in
  let evs := emitted (trace emptyWorld) (trace result.2) in
  fileOperations evs =
    [("dns.conf", list_byte_of_string "a.com" ++ [x0a] ++ list_byte_of_string "b.com" ++ [x0a],
      true)]
  ∧ result.1 = telegrafSink
  ∧ trace result.2 = trace emptyWorld ++ evs
  ∧ ((fileOperations evs = [] ∧ List.length (errorLines evs) ≤ 1)
     ∨ ∃ merged,
         fileOperations evs =
           [(confOf telegrafSink (Discovery.Name d), merged,
             TelegrafOptions.Checksum (Telegraf.options telegrafSink))]
         ∧ errorLines evs = []).
Proof.
  split; [vm_compute; reflexivity|].
  apply (X20_label_discoveries_write_one_file true telegrafSink
           (Discovery.mk "DNS" "prometheus")
           (@SinkObject.mk payloads scenarioDomains OptionsOther) emptyWorld).
  simpl. apply elem_of_cons. right. apply elem_of_cons. by left.
Defined.

(** The instances of the default configuration and of a list of names. *)
Example discovery_instances_of_names :
  GetPrometheusDiscoveriesByInstances "" = {[ "unknown0" := "" ]}
  ∧ GetPrometheusDiscoveriesByInstances "main=http://a:9090, http://b:9090 ,=http://c,empty="
    = {[ "main" := "http://a:9090"; "unknown1" := "http://b:9090";
         "unknown2" := "http://c" ]}.
Proof. split; vm_compute; reflexivity. Qed.

(** Signal discovery over two services, one with metrics and one without:
    both are processed, one file is written. *)
Example signal_sink_isolates_failures :
  let d := Discovery.mk "Signal" "prometheus" in
  let sm : gmap string (gmap string string) :=
    {[ "idle" := {[ "env" := "dev" ]}; "busy" := {[ "metrics" := "up,down" ]} ]} in
  let so := SinkObject.mk sm (OptionsSignal (SignalOptions.mk "http://prom" "" "")) in
  let result := Process true telegrafSink d so emptyWorld in
  let evs := trace result.2 in
  List.length (debugLines "%s: Processing service: %s for path: %s" evs) = 2
  ∧ fileOperations evs = [("path", list_byte_of_string "path" ++ [x0a], true)]
  ∧ List.length (errorLines evs) = 1
  ∧ InputPrometheusHttpOptions.URL (signalOptions result.1) = "http://prom".
Proof. repeat split; vm_compute; reflexivity. Qed.

End more_examples.
